(** * gt_rtl_radio: the FM tuner control layer of [src/gr_rtl_tuner.cpp]

    A shallow embedding of the control API ([rtl_set_fm], [rtl_get_fm],
    [rtl_get_fm_stations], [rtl_start_fm], [rtl_stop_fm],
    [rtl_destroy_tuner]) and of the band scanner [scan_fm_stations].

    - A C++ [double] is an IEEE 754 binary64 value: [spec_float] with
      precision 53 and maximal exponent 1024, rounded to nearest even.
    - An [unsigned int] is a [Z] reduced modulo [2^32].
    - The fixed-size arrays are lists of [MAX_FM_STATIONS] doubles, written
      by index; an access past the end is a fault.
    - The outside world (clock, signal power probe, standard output) is a
      record threaded through every call; a call either returns a value
      and a new world, or stops with a fault.
    - Threads that share a context are a step relation that interleaves
      the steps of their critical sections ([Module Threads]). *)

From Stdlib Require Import ZArith Lia Bool String.
From Stdlib.Floats Require Import SpecFloat.
From stdpp Require Import base list relations sorting.

Local Open Scope Z_scope.

(** ** Double precision arithmetic *)

Module Double.

Definition prec : Z := 53.
Definition emax : Z := 1024.

Abbreviation double := spec_float.

Definition add : double -> double -> double := SFadd prec emax.
Definition mul : double -> double -> double := SFmul prec emax.
Definition div : double -> double -> double := SFdiv prec emax.
Definition ltb : double -> double -> bool := SFltb.
Definition leb : double -> double -> bool := SFleb.
Definition succ : double -> double := SFsucc prec emax.
Definition pred : double -> double := SFpred prec emax.

(** Conversion of an integer to [double] (exact below [2^53]). *)
Definition of_int (z : Z) : double := binary_normalize prec emax z 0 false.

Definition zero : double := S754_zero false.

(** A decimal literal [n / d], correctly rounded, as a C++ compiler
    reads it. *)
Definition decimal (n d : Z) : double := div (of_int n) (of_int d).

(** Equality test on the representation (not the IEEE [==]). *)
Definition same (x y : double) : bool :=
  match x, y with
  | S754_zero a, S754_zero b => Bool.eqb a b
  | S754_infinity a, S754_infinity b => Bool.eqb a b
  | S754_nan, S754_nan => true
  | S754_finite a m e, S754_finite b n f =>
      Bool.eqb a b && Pos.eqb m n && Z.eqb e f
  | _, _ => false
  end.

End Double.

Import Double.

(** The literals of the source file. *)
Definition d_87_9 : double := S754_finite false 0x15f9999999999a (-46).
Definition d_107_9 : double := S754_finite false 0x1af9999999999a (-46).
Definition d_0_2 : double := S754_finite false 0x1999999999999a (-55).
Definition d_1e6 : double := S754_finite false 8589934592000000 (-33).
Definition d_0_0002 : double := S754_finite false 0x1a36e2eb1c432d (-65).

(** ** Machine integers *)

Definition wrap32 (z : Z) : Z := z mod 2 ^ 32.

(** ** Constants *)

Definition MAX_FM_STATIONS : Z := 100.
Definition SWITCH_DELAY_MS : Z := 1000.
Definition MEASURE_MS : Z := 200.
Definition POWER_THRESHOLD : double := d_0_0002.

(** ** The world and the tuner context *)

(** One call of [printf]: the format string and its arguments. *)
Inductive output :=
| Printf (fmt : string) (args : list double).

(** The world outside the tuner.
    - [clock]: the readings that the successive calls of
      [high_resolution_clock::now()] return, in ticks of one nanosecond;
    - [power]: what [avg_magnitude->level()] returns, given the centre
      frequency (in hertz) the source is tuned to and the number of
      readings taken before;
    - [reads]: the number of readings of the probe taken so far;
    - [slept]: the milliseconds spent in [sleep_for];
    - [stdout]: the lines printed, latest first;
    - [junk]: the indeterminate content of uninitialised stack memory. *)
Record world := World {
  clock : list Z;
  power : double -> nat -> double;
  reads : nat;
  slept : Z;
  stdout : list output;
  junk : double
}.

(** [struct rtl_ctx].  [top_block] is the running state of the flowgraph,
    [rtl_source] the centre frequency of the source in hertz;
    [avg_magnitude] reads the probe of the world.  The mutex
    [station_list_mtx] is free whenever a sequential call starts and
    ends; its role between threads is the subject of [Module Threads]. *)
Record rtl_ctx := Ctx {
  top_block : bool;
  rtl_source : double;
  station_list : list double;
  station_list_len : Z
}.

(** A pointer to a context: [None] is [NULL]. *)
Abbreviation rtl_ctx_ptr := (option rtl_ctx).

(** ** Outcomes *)

Inductive fault :=
| NullDereference    (* a member of a null context was accessed *)
| OutOfBounds        (* an array was accessed past its end *)
| ClockExhausted     (* the clock trace of the world ended inside a window *)
| SweepUnfinished    (* the sweep did not leave its loop *)
| BlocksForever.     (* the call never returns *)

Inductive result (A : Type) :=
| Ok (a : A) (w : world)
| Fault (f : fault).
Arguments Ok {A} a w.
Arguments Fault {A} f.

Definition M (A : Type) : Type := world -> result A.

Definition ret {A} (a : A) : M A := fun w => Ok a w.
Definition raise {A} (f : fault) : M A := fun _ => Fault f.
Definition bind {A B} (m : M A) (k : A -> M B) : M B :=
  fun w => match m w with
           | Ok a w' => k a w'
           | Fault f => Fault f
           end.

Declare Scope tuner_scope.
Delimit Scope tuner_scope with tuner.
Notation "x <- m ;; k" := (bind m (fun x => k))
  (at level 100, m at next level, right associativity) : tuner_scope.
Notation "m ;; k" := (bind m (fun _ => k))
  (at level 100, right associativity) : tuner_scope.
Local Open Scope tuner_scope.

(** ** Primitive actions *)

Definition printf (fmt : string) (args : list double) : M unit :=
  fun w => Ok tt (World (clock w) (power w) (reads w) (slept w)
                        (Printf fmt args :: stdout w) (junk w)).

Definition sleep_for (ms : Z) : M unit :=
  fun w => Ok tt (World (clock w) (power w) (reads w) (slept w + ms)
                        (stdout w) (junk w)).

Definition set_clock (clk : list Z) (w : world) : world :=
  World clk (power w) (reads w) (slept w) (stdout w) (junk w).

(** [high_resolution_clock::now()]. *)
Definition now : M Z :=
  fun w => match clock w with
           | [] => Fault ClockExhausted
           | t :: clk => Ok t (set_clock clk w)
           end.

(** [tuner->avg_magnitude->level()] with the source tuned to [hz]. *)
Definition level (hz : double) : M double :=
  fun w => Ok (power w hz (reads w))
              (World (clock w) (power w) (S (reads w)) (slept w)
                     (stdout w) (junk w)).

(** Dereference of a context pointer. *)
Definition deref (tuner : rtl_ctx_ptr) : M rtl_ctx :=
  match tuner with
  | Some t => ret t
  | None => raise NullDereference
  end.

(** Modelled from the spec: the source block of the signal pipeline (the
    osmosdr library, outside this repository) is a collaborator with the
    contract [tune(frequencyHz)] / [getTunedFrequencyHz()]; it keeps the
    frequency it was last given. *)
Definition set_center_freq (hz : double) (t : rtl_ctx) : rtl_ctx :=
  Ctx (top_block t) hz (station_list t) (station_list_len t).
Definition get_center_freq (t : rtl_ctx) : double := rtl_source t.

(** ** Frequency control *)

Definition rtl_set_fm (tuner : rtl_ctx_ptr) (freq : double) : M rtl_ctx :=
  t <- deref tuner ;;
  ret (set_center_freq (mul freq d_1e6) t).

Definition rtl_get_fm (tuner : rtl_ctx_ptr) : M double :=
  t <- deref tuner ;;
  ret (div (get_center_freq t) d_1e6).

(** ** The band scanner *)

(** [duration_cast<milliseconds>(t - start).count()]: the elapsed ticks,
    truncated towards zero to whole milliseconds.  The readings of
    [steady_clock] are counts of nanoseconds (its period in libstdc++ and
    libc++), and the difference of two readings is taken in the integers:
    the 64-bit difference of the code agrees with it as long as it does
    not overflow, that is for readings less than [2^63] ns (292 years)
    apart. *)
Definition elapsed_ms (start t : Z) : Z := Z.quot (t - start) 1000000.

(** The polling loop
    [while (elapsed_ms(start, now()) < MEASURE_MS)
       { sample_sum += level(); ++num_samples; }].
    Each test of the condition takes one reading [t] off the clock [clk];
    [clk] is the clock of [w]. *)
Fixpoint measure (clk : list Z) (start : Z) (hz : double)
    (sample_sum : double) (num_samples : Z) (w : world)
  : result (double * Z) :=
  match clk with
  | [] => Fault ClockExhausted
  | t :: clk' =>
      if elapsed_ms start t <? MEASURE_MS then
        match level hz (set_clock clk' w) with
        | Ok lv w' =>
            measure clk' start hz (add sample_sum lv)
                    (wrap32 (num_samples + 1)) w'
        | Fault f => Fault f
        end
      else Ok (sample_sum, num_samples) (set_clock clk' w)
  end.

(** Store into a fixed-size array: [a[i] = x]. *)
Definition array_store (a : list double) (i : Z) (x : double)
  : M (list double) :=
  if (0 <=? i) && (i <? Z.of_nat (length a))
  then ret (<[Z.to_nat i := x]> a)
  else raise OutOfBounds.

(** [memcpy(dst, src, sizeof(double) * n)] between two arrays of doubles:
    the first [n] entries of [dst] become those of [src]. *)
Definition memcpy (dst src : list double) (n : Z) : M (list double) :=
  if (n <=? Z.of_nat (length dst)) && (n <=? Z.of_nat (length src))
  then ret (take (Z.to_nat n) src ++ drop (Z.to_nat n) dst)
  else raise OutOfBounds.

(** The local variables of [scan_fm_stations] that live across the
    iterations of the sweep. *)
Record scan_locals := Locals {
  found_stations : Z;
  stations_out : list double
}.

(** The body of the sweep for one candidate frequency [freq]. *)
Definition scan_step (freq : double) (st : rtl_ctx_ptr * scan_locals)
  : M (rtl_ctx_ptr * scan_locals) :=
  let (tuner, loc) := st in
  t <- rtl_set_fm tuner freq ;;
  sleep_for SWITCH_DELAY_MS ;;
  start <- now ;;
  sn <- (fun w => measure (clock w) start (get_center_freq t) zero 0 w) ;;
  let (sample_sum, num_samples) := sn : double * Z in
  if 0 <? num_samples then
    let sample_avg := div sample_sum (of_int num_samples) in
    if ltb POWER_THRESHOLD sample_avg then
      printf "\tFound station: %f, strength: %f\n" [freq; sample_avg] ;;
      out <- array_store (stations_out loc) (found_stations loc) freq ;;
      ret (Some t, Locals (wrap32 (found_stations loc + 1)) out)
    else ret (Some t, loc)
  else ret (Some t, loc).

(** [for (double freq = 87.9; freq <= 107.9; freq += 0.2) { ... }],
    entered with the loop variable at [freq]; [fuel] bounds the number of
    tests of the loop condition. *)
Fixpoint sweep (fuel : nat) (freq : double) (st : rtl_ctx_ptr * scan_locals)
  : M (rtl_ctx_ptr * scan_locals) :=
  match fuel with
  | O => raise SweepUnfinished
  | S fuel' =>
      if leb freq d_107_9 then
        st' <- scan_step freq st ;;
        sweep fuel' (add freq d_0_2) st'
      else ret st
  end.

(** Tests of the loop condition granted to the sweep; [sweep_leaves]
    below shows that the loop leaves by its own condition before. *)
Definition SWEEP_FUEL : nat := 128.

Definition scan_fm_stations (tuner : rtl_ctx_ptr) : M rtl_ctx_ptr :=
  fun w =>
  (let loc := Locals 0 (replicate (Z.to_nat MAX_FM_STATIONS) (junk w)) in
   printf "Starting scan\n" [] ;;
   st <- sweep SWEEP_FUEL d_87_9 (tuner, loc) ;;
   let (tuner, loc) := st : rtl_ctx_ptr * scan_locals in
   (* lock_guard on station_list_mtx *)
   t <- deref tuner ;;
   list <- memcpy (station_list t) (stations_out loc)
                  (found_stations loc) ;;
   let t := Ctx (top_block t) (rtl_source t) list (found_stations loc) in
   printf "Finished scan\n" [] ;;
   ret (Some t)) w.

(** [rtl_get_fm_stations(tuner, stations_out)]: [buf] is the array the
    caller passes; the call returns the count, the array after the copy
    and the context pointer. *)
Definition rtl_get_fm_stations (tuner : rtl_ctx_ptr) (buf : list double)
  : M (Z * list double * rtl_ctx_ptr) :=
  tuner <- scan_fm_stations tuner ;;
  (* lock_guard on station_list_mtx *)
  t <- deref tuner ;;
  buf <- memcpy buf (station_list t) (station_list_len t) ;;
  let stations_out_len := station_list_len t in
  ret (stations_out_len, buf, Some t).

(** ** Lifecycle *)

(** [rtl_start_fm]: [top_block->start()] then [top_block->wait()], which
    does not return while the flowgraph runs. *)
Definition rtl_start_fm (tuner : rtl_ctx_ptr) : M rtl_ctx_ptr :=
  match tuner with
  | None => printf "Error: rtl_start_fm - no tuner specified\n" [] ;;
            ret tuner
  | Some t => raise BlocksForever
  end.

Definition rtl_stop_fm (tuner : rtl_ctx_ptr) : M rtl_ctx_ptr :=
  match tuner with
  | None => printf "Error: rtl_stop_fm - no tuner specified\n" [] ;;
            ret tuner
  | Some t =>
      ret (Some (Ctx false (rtl_source t) (station_list t)
                     (station_list_len t)))
  end.

(** [rtl_destroy_tuner]: the flowgraph is stopped and released and the
    context deleted; nothing of it is left to return. *)
Definition rtl_destroy_tuner (tuner : rtl_ctx_ptr) : M unit :=
  match tuner with
  | None => printf "Error: rtl_destroy_tuner - null pointer\n" []
  | Some t => ret tt
  end.

(** ** The candidate frequencies *)

(** The values the loop variable of the sweep takes, following the
    control of the [for] loop alone. *)
Fixpoint candidates (fuel : nat) (freq : double) : option (list double) :=
  match fuel with
  | O => None
  | S fuel' =>
      if leb freq d_107_9
      then option_map (cons freq) (candidates fuel' (add freq d_0_2))
      else Some []
  end.

Definition band : list double :=
  Eval vm_compute in
  match candidates SWEEP_FUEL d_87_9 with
  | Some l => l
  | None => []
  end.

(** Left fold of a step of the scanner over a list of frequencies. *)
Fixpoint steps {S : Type} (step : double -> S -> M S) (l : list double)
    (st : S) : M S :=
  match l with
  | [] => ret st
  | f :: l' => st' <- step f st ;; steps step l' st'
  end.

(** ** What a window measures *)

(** The readings of the probe in a window of [n] samples that starts
    after [r] readings, with the source tuned to [hz]. *)
Definition samples (pw : double -> nat -> double) (hz : double)
    (r n : nat) : list double :=
  map (pw hz) (seq r n).

(** The running sum, as the loop accumulates it. *)
Definition sum_of (l : list double) : double := fold_left add l zero.

(** The value of [num_samples] after [k] increments from [n]. *)
Definition count_after (n : Z) (k : nat) : Z :=
  match k with
  | O => n
  | S _ => wrap32 (n + Z.of_nat k)
  end.

(** The decision of the scanner on a window, as the code takes it. *)
Definition detects (l : list double) : bool :=
  let num_samples := wrap32 (Z.of_nat (length l)) in
  (0 <? num_samples) &&
  ltb POWER_THRESHOLD (div (sum_of l) (of_int num_samples)).

(** The decision in the words of the specification: the arithmetic mean
    of the samples of the window exceeds the threshold; a window without
    samples detects nothing. *)
Definition arithmetic_mean (l : list double) : double :=
  div (sum_of l) (of_int (Z.of_nat (length l))).

Definition spec_detects (l : list double) : bool :=
  match l with
  | [] => false
  | _ :: _ => ltb POWER_THRESHOLD (arithmetic_mean l)
  end.

(** The stations a sweep over [l] records when its windows take [ns]
    samples, the first window starting after [r] readings. *)
Fixpoint discovered (pw : double -> nat -> double) (r : nat)
    (l : list double) (ns : list nat) : list double :=
  match l, ns with
  | f :: l', n :: ns' =>
      (if detects (samples pw (mul f d_1e6) r n) then [f] else [])
      ++ discovered pw (r + n) l' ns'
  | _, _ => []
  end.

(** ** Clocks *)

(** [clock_sweep ns clk rest]: the clock [clk] carries a run of
    measurement windows, one per entry of [ns] - a reading for [start],
    [n] readings less than [MEASURE_MS] after it, and one reading that
    closes the window - and then goes on as [rest]. *)
Inductive clock_sweep : list nat -> list Z -> list Z -> Prop :=
| sweep_done clk : clock_sweep [] clk clk
| sweep_window start inside stop clk ns rest :
    Forall (fun t => elapsed_ms start t < MEASURE_MS) inside ->
    MEASURE_MS <= elapsed_ms start stop ->
    clock_sweep ns clk rest ->
    clock_sweep (length inside :: ns) (start :: inside ++ stop :: clk) rest.

(** A clock that stands still inside each window: the window opens at
    [t0], its [n] polls read [t0] again, it closes 200 ms later, and the
    next window opens after the settle delay. *)
Fixpoint steady_clock (t0 : Z) (ns : list nat) : list Z :=
  match ns with
  | [] => []
  | n :: ns' =>
      (t0 :: replicate n t0 ++ [t0 + 200000000])
      ++ steady_clock (t0 + 1200000000) ns'
  end.

(** A context is well formed when its station array has its declared
    size and its length field is within it. *)
Definition ctx_wf (t : rtl_ctx) : Prop :=
  length (station_list t) = Z.to_nat MAX_FM_STATIONS /\
  0 <= station_list_len t <= MAX_FM_STATIONS.

(** The stations a context holds: the first [station_list_len] entries
    of its array. *)
Definition stations (t : rtl_ctx) : list double :=
  take (Z.to_nat (station_list_len t)) (station_list t).

(** Strictly ascending lists of doubles. *)
Fixpoint ascending (l : list double) : bool :=
  match l with
  | x :: (y :: _) as l' => ltb x y && ascending l'
  | _ => true
  end.

(** ** Further definitions for the statements *)

(** The centre frequency a sweep over [l] leaves behind. *)
Definition tuned_after (l : list double) (hz : double) : double :=
  fold_left (fun _ f => mul f d_1e6) l hz.

(** The last candidate of the sweep, 107.70000000000029: the variable
    of the loop is 107.90000000000029 after it, above the bound. *)
Definition d_last : double := S754_finite false 0x1aeccccccccce1 (-46).

#[global] Instance spec_float_eq_dec : EqDecision spec_float.
Proof. solve_decision. Defined.

(** A context tuned to 101.9 MHz whose station list is empty. *)
Definition hz_101_9 : double :=
  Eval vm_compute in mul (decimal 1019 10) d_1e6.

Definition demo_ctx : rtl_ctx :=
  Ctx true hz_101_9 (replicate 100 zero) 0.

(** A world whose probe reads [pw] and whose windows take [ns] samples. *)
Definition demo_world (pw : double -> nat -> double) (ns : list nat) : world :=
  World (steady_clock 0 ns) pw 0 0 [] zero.

(** A probe that reads the same power whatever the frequency. *)
Definition constant_power (w : world) (c : double) : Prop :=
  forall hz i, power w hz i = c.

(** The power 1.0, far above the threshold. *)
Definition d_1 : double := Eval vm_compute in of_int 1.

(** The two unit conversions, one after the other. *)
Definition mhz_roundtrip (f : double) : double := div (mul f d_1e6) d_1e6.

(** [below P k]: the test [P] holds of 0, 1, ..., [k - 1]. *)
Fixpoint below (P : Z -> bool) (k : nat) : bool :=
  match k with
  | O => true
  | S k' => P (Z.of_nat k') && below P k'
  end.

(** The tenths of a megahertz from 0.0 to 200.0 survive the two
    conversions. *)
Definition survives (n : Z) : bool :=
  same (mhz_roundtrip (decimal n 10)) (decimal n 10).

(** * Threads

    Several threads call [rtl_get_fm_stations] on one context.  The
    sweep of a thread works on its own array; what the threads share is
    the station list of the context, its length and the mutex
    [station_list_mtx].  A thread goes through the two critical sections
    of the source, each [memcpy] one entry at a time, and the scheduler
    interleaves the steps of the threads at will. *)

Module Threads.

(** Where a thread stands in [rtl_get_fm_stations]. *)
Inductive pc :=
| Scanning                                   (* in the sweep *)
| WriteLock (r : list double)                (* sweep done, found [r]; before the first lock_guard *)
| WriteCopy (r : list double) (i : nat)      (* in memcpy to station_list, [i] entries copied *)
| WriteLen (r : list double)                 (* before station_list_len = found_stations *)
| WriteUnlock (r : list double)              (* at the end of the first block *)
| ReadLock                                   (* before the second lock_guard *)
| ReadCopy (buf : list double) (n : Z) (i : nat)  (* in memcpy of [n] entries to the caller, [i] copied *)
| ReadLen (buf : list double)                (* before stations_out_len = station_list_len *)
| ReadUnlock (buf : list double) (count : Z) (* at the end of the second block *)
| Done (buf : list double) (count : Z).      (* returned [count] *)

(** The shared context, the holder of the mutex, the threads, and - for
    the statements only - the station lists published so far, latest
    first: the one the context started with and then the result of each
    scan, added when its writer releases the mutex. *)
Record state := State {
  ctx : rtl_ctx;
  mtx : option nat;
  threads : nat -> pc;
  published : list (list double)
}.

Definition upd (ths : nat -> pc) (tid : nat) (p : pc) : nat -> pc :=
  fun j => if Nat.eqb j tid then p else ths j.

Definition set_list (c : rtl_ctx) (l : list double) : rtl_ctx :=
  Ctx (top_block c) (rtl_source c) l (station_list_len c).

Definition set_len (c : rtl_ctx) (n : Z) : rtl_ctx :=
  Ctx (top_block c) (rtl_source c) (station_list c) n.

(** One step of one thread. *)
Inductive step : state -> state -> Prop :=
| step_scan s tid r :
    threads s tid = Scanning ->
    (length r <= Z.to_nat MAX_FM_STATIONS)%nat ->
    step s (State (ctx s) (mtx s) (upd (threads s) tid (WriteLock r))
                  (published s))
| step_write_lock s tid r :
    threads s tid = WriteLock r ->
    mtx s = None ->
    step s (State (ctx s) (Some tid) (upd (threads s) tid (WriteCopy r 0))
                  (published s))
| step_write_copy s tid r i x :
    threads s tid = WriteCopy r i ->
    r !! i = Some x ->
    step s (State (set_list (ctx s) (<[i := x]> (station_list (ctx s))))
                  (mtx s) (upd (threads s) tid (WriteCopy r (S i)))
                  (published s))
| step_write_copied s tid r :
    threads s tid = WriteCopy r (length r) ->
    step s (State (ctx s) (mtx s) (upd (threads s) tid (WriteLen r))
                  (published s))
| step_write_len s tid r :
    threads s tid = WriteLen r ->
    step s (State (set_len (ctx s) (Z.of_nat (length r))) (mtx s)
                  (upd (threads s) tid (WriteUnlock r)) (published s))
| step_write_unlock s tid r :
    threads s tid = WriteUnlock r ->
    step s (State (ctx s) None (upd (threads s) tid ReadLock)
                  (r :: published s))
| step_read_lock s tid buf :
    threads s tid = ReadLock ->
    mtx s = None ->
    length buf = Z.to_nat MAX_FM_STATIONS ->
    step s (State (ctx s) (Some tid)
                  (upd (threads s) tid
                       (ReadCopy buf (station_list_len (ctx s)) 0))
                  (published s))
| step_read_copy s tid buf n i x :
    threads s tid = ReadCopy buf n i ->
    Z.of_nat i < n ->
    station_list (ctx s) !! i = Some x ->
    step s (State (ctx s) (mtx s)
                  (upd (threads s) tid (ReadCopy (<[i := x]> buf) n (S i)))
                  (published s))
| step_read_copied s tid buf n i :
    threads s tid = ReadCopy buf n i ->
    Z.of_nat i = n ->
    step s (State (ctx s) (mtx s) (upd (threads s) tid (ReadLen buf))
                  (published s))
| step_read_len s tid buf :
    threads s tid = ReadLen buf ->
    step s (State (ctx s) (mtx s)
                  (upd (threads s) tid
                       (ReadUnlock buf (station_list_len (ctx s))))
                  (published s))
| step_read_unlock s tid buf count :
    threads s tid = ReadUnlock buf count ->
    step s (State (ctx s) None (upd (threads s) tid (Done buf count))
                  (published s)).

(** All threads about to scan a context whose mutex is free. *)
Definition init (c : rtl_ctx) : state :=
  State c None (fun _ => Scanning) [stations c].






End Threads.

(** ** Definitions for the further properties *)

(** The line printed for a station found at [f] on the samples [l]. *)
Definition found_line (f : double) (l : list double) : output :=
  Printf "\tFound station: %f, strength: %f\n"
         [f; div (sum_of l) (of_int (wrap32 (Z.of_nat (length l))))].

(** The lines a sweep over [l] prints, in the order it prints them. *)
Fixpoint report (pw : double -> nat -> double) (r : nat)
    (l : list double) (ns : list nat) : list output :=
  match l, ns with
  | f :: l', n :: ns' =>
      let s := samples pw (mul f d_1e6) r n in
      (if detects s then [found_line f s] else [])
      ++ report pw (r + n) l' ns'
  | _, _ => []
  end.

(** The context and the world a scan leaves behind when the windows of
    its sweep take [ns] samples and the clock goes on as [rest]. *)
Definition ctx_after_scan (t : rtl_ctx) (d : list double) : rtl_ctx :=
  Ctx (top_block t) (mul d_last d_1e6)
      (d ++ drop (length d) (station_list t)) (Z.of_nat (length d)).

Definition world_after_scan (w : world) (ns : list nat) (rest : list Z)
  : world :=
  World rest (power w) (reads w + sum_list ns)%nat (slept w + 100000)
        (Printf "Finished scan\n" []
         :: rev (report (power w) (reads w) band ns)
         ++ Printf "Starting scan\n" [] :: stdout w)
        (junk w).

(** The order of the frequencies, as a relation. *)
Definition below_freq (x y : double) : Prop := ltb x y = true.

#[global] Instance below_freq_dec (x y : double) : Decision (below_freq x y).
Proof. unfold below_freq. apply _. Defined.

(** The frequency a line of the scanner reports. *)
Definition reported_freq (o : output) : option double :=
  match o with
  | Printf _ (f :: _) => Some f
  | Printf _ [] => None
  end.

(** A probe that reads NaN at its fifth reading and 1.0 otherwise. *)
Definition nan_at_5 (hz : double) (i : nat) : double :=
  if Nat.eqb i 4 then S754_nan else d_1.

(** Between two states only thread [tid] has moved, and it stands at
    [p]. *)
Definition moved (s s' : Threads.state) (tid : nat) (p : Threads.pc)
  : Prop :=
  Threads.threads s' tid = p /\
  forall j, j <> tid -> Threads.threads s' j = Threads.threads s j.

(** ** Exact arithmetic on doubles *)

(** The value of a finite double, times [2^1200]: an integer, the
    exponent of a double being at least -1074. *)
Definition exact_scaled (x : double) : option Z :=
  match x with
  | S754_zero _ => Some 0
  | S754_finite s m e =>
      Some ((if s then Z.neg m else Z.pos m) * 2 ^ (e + 1200))
  | S754_infinity _ | S754_nan => None
  end.

(** The sum of the samples, exactly, on that scale. *)
Fixpoint exact_sum (l : list double) : option Z :=
  match l with
  | [] => Some 0
  | x :: l' =>
      match exact_scaled x, exact_sum l' with
      | Some z, Some s => Some (z + s)
      | _, _ => None
      end
  end.

(** The arithmetic mean of the samples [l], taken exactly, is strictly
    above [t]: the sum exceeds [t] times their number. *)
Definition exact_mean_exceeds (l : list double) (t : double) : bool :=
  match l, exact_sum l, exact_scaled t with
  | _ :: _, Some s, Some zt => Z.of_nat (length l) * zt <? s
  | _, _, _ => false
  end.

(** ** Rounding of the round trip *)

(** [loc_matches l rnum den]: the location [l] describes the fraction
    [rnum / den] of [[0, 1)]: zero, or below, at or above one half. *)
Definition loc_matches (l : location) (rnum den : Z) : Prop :=
  match l with
  | loc_Exact => rnum = 0
  | loc_Inexact c => rnum <> 0 /\ (2 * rnum ?= den) = c
  end.

(** [within_ulp x y]: [x] is [y] up to one unit in the last place of [y]
    (for finite values [mx * 2^ex] and [my * 2^ey] of the same sign:
    [|x - y| <= 2^ey]); zeros, infinities and NaN match themselves
    only. *)
Definition within_ulp (x y : double) : bool :=
  match x, y with
  | S754_finite sx mx ex, S754_finite sy my ey =>
      Bool.eqb sx sy &&
      (Z.abs (Z.pos mx * 2 ^ (ex - Z.min ex ey)
              - Z.pos my * 2 ^ (ey - Z.min ex ey))
       <=? 2 ^ (ey - Z.min ex ey))
  | _, _ => same x y
  end.

(** Neither an infinity nor NaN. *)
Definition is_finite (x : double) : bool :=
  match x with
  | S754_zero _ | S754_finite _ _ _ => true
  | S754_infinity _ | S754_nan => false
  end.

(** The frequencies [2^1023] and [2^1010] MHz: in hertz they are beyond
    the largest double. *)
Definition d_2p1023 : double := S754_finite false 4503599627370496 971.
Definition d_2p1010 : double := S754_finite false 4503599627370496 958.

(** ** Further demonstration inputs *)

(** A probe that reads 1.0 at its first three readings and 0.0 after. *)
Definition first_only (hz : double) (i : nat) : double :=
  if (i <? 3)%nat then d_1 else zero.

(** A context that holds the hundred stations of an earlier scan. *)
Definition full_ctx : rtl_ctx := Ctx true hz_101_9 band 100.

(** ** Basic facts *)

Arguments add : simpl never.
Arguments mul : simpl never.
Arguments div : simpl never.
Arguments ltb : simpl never.
Arguments leb : simpl never.
Arguments of_int : simpl never.
Arguments wrap32 : simpl never.
Arguments elapsed_ms : simpl never.

(** The literals are the doubles nearest to the decimals of the source. *)
Lemma literals_rounded :
  d_87_9 = decimal 879 10 /\ d_107_9 = decimal 1079 10 /\
  d_0_2 = decimal 2 10 /\ d_0_0002 = decimal 2 10000 /\
  d_1e6 = of_int 1000000 /\ hz_101_9 = mul (decimal 1019 10) d_1e6.
Proof. repeat split; vm_compute; reflexivity. Qed.

Lemma wrap32_small (z : Z) : 0 <= z < 2 ^ 32 -> wrap32 z = z.
Proof. intros H. unfold wrap32. now apply Z.mod_small. Qed.

Lemma wrap32_incr (n k : Z) : wrap32 (wrap32 (n + 1) + k) = wrap32 (n + (1 + k)).
Proof.
  unfold wrap32. rewrite Zplus_mod_idemp_l. f_equal. lia.
Qed.

Lemma count_after_0 (k : nat) : count_after 0 k = wrap32 (Z.of_nat k).
Proof. destruct k; reflexivity. Qed.

Lemma length_samples pw hz r n : length (samples pw hz r n) = n.
Proof. unfold samples. now rewrite length_map, length_seq. Qed.

(** The sweep follows its candidates: when the control of the loop yields
    the list [l], the sweep is the fold of its body over [l]. *)
Lemma sweep_candidates (fuel : nat) :
  forall freq l st w,
    candidates fuel freq = Some l ->
    sweep fuel freq st w = steps scan_step l st w.
Proof.
  induction fuel as [|fuel IH]; intros freq l st w Hc; cbn [candidates] in Hc.
  - discriminate.
  - cbn [sweep]. destruct (leb freq d_107_9).
    + destruct (candidates fuel (add freq d_0_2)) as [l'|] eqn:E;
        cbn in Hc; [|discriminate].
      injection Hc as <-. cbn [steps]. unfold bind.
      destruct (scan_step freq st w); [|reflexivity].
      now apply IH.
    + injection Hc as <-. reflexivity.
Qed.

(** The loop of the sweep leaves by its own condition. *)
Lemma sweep_leaves : candidates SWEEP_FUEL d_87_9 = Some band.
Proof. vm_compute. reflexivity. Qed.

Lemma band_length : length band = 100%nat.
Proof. vm_compute. reflexivity. Qed.

Lemma sweep_band st w : sweep SWEEP_FUEL d_87_9 st w = steps scan_step band st w.
Proof. apply sweep_candidates, sweep_leaves. Qed.

(** ** One measurement window *)

Lemma measure_window (inside : list Z) :
  forall start stop rest hz sum n w,
    Forall (fun t => elapsed_ms start t < MEASURE_MS) inside ->
    MEASURE_MS <= elapsed_ms start stop ->
    measure (inside ++ stop :: rest) start hz sum n w =
    Ok (fold_left add (samples (power w) hz (reads w) (length inside)) sum,
        count_after n (length inside))
       (World rest (power w) (reads w + length inside)%nat (slept w)
              (stdout w) (junk w)).
Proof.
  induction inside as [|t inside IH]; intros start stop rest hz sum n w Hin Hout.
  - cbn [app measure length].
    destruct (Z.ltb_spec (elapsed_ms start stop) MEASURE_MS) as [Hlt|_]; [lia|].
    unfold set_clock. cbn. now rewrite Nat.add_0_r.
  - apply Forall_cons in Hin as [Ht Hin].
    cbn [app measure length].
    destruct (Z.ltb_spec (elapsed_ms start t) MEASURE_MS) as [_|Hge]; [|lia].
    unfold level, set_clock. cbn [clock power reads slept stdout junk].
    rewrite IH by assumption. cbn [clock power reads slept stdout junk].
    unfold samples. cbn [seq map fold_left].
    f_equal.
    + f_equal. destruct (length inside) as [|k] eqn:E; cbn [count_after].
      * reflexivity.
      * rewrite wrap32_incr. f_equal. lia.
    + f_equal. lia.
Qed.

(** One step of the sweep on a clock that opens with a window. *)
Lemma scan_step_window freq t loc w start inside stop rest :
  clock w = start :: inside ++ stop :: rest ->
  Forall (fun t => elapsed_ms start t < MEASURE_MS) inside ->
  MEASURE_MS <= elapsed_ms start stop ->
  let t' := set_center_freq (mul freq d_1e6) t in
  let s := samples (power w) (mul freq d_1e6) (reads w) (length inside) in
  let w' := World rest (power w) (reads w + length inside)%nat
                  (slept w + SWITCH_DELAY_MS) (stdout w) (junk w) in
  scan_step freq (Some t, loc) w =
  if detects s then
    (printf "\tFound station: %f, strength: %f\n"
            [freq; div (sum_of s) (of_int (wrap32 (Z.of_nat (length inside))))] ;;
     out <- array_store (stations_out loc) (found_stations loc) freq ;;
     ret (Some t', Locals (wrap32 (found_stations loc + 1)) out)) w'
  else Ok (Some t', loc) w'.
Proof.
  intros Hclk Hin Hout t' s w'.
  unfold scan_step, bind at 1 2 3 4, rtl_set_fm, deref, ret, sleep_for, now.
  cbn [bind clock power reads slept stdout junk]. unfold bind at 1. cbn [ret].
  rewrite Hclk. unfold set_clock. cbn [clock power reads slept stdout junk].
  unfold get_center_freq, set_center_freq. cbn [rtl_source].
  rewrite measure_window by assumption.
  cbn [clock power reads slept stdout junk]. rewrite count_after_0.
  unfold detects. fold s. subst s. rewrite length_samples.
  destruct (0 <? wrap32 (Z.of_nat (length inside))); cbn [andb]; [|reflexivity].
  unfold sum_of.
  destruct (ltb POWER_THRESHOLD _); reflexivity.
Qed.

(** ** The whole sweep *)

Lemma array_store_in (a : list double) (i : Z) (x : double) (w : world) :
  0 <= i < Z.of_nat (length a) ->
  array_store a i x w = Ok (<[Z.to_nat i := x]> a) w.
Proof.
  intros [H0 H1]. unfold array_store.
  destruct (Z.leb_spec 0 i); [|lia].
  destruct (Z.ltb_spec i (Z.of_nat (length a))); [|lia].
  reflexivity.
Qed.

Lemma memcpy_in (dst src : list double) (n : Z) (w : world) :
  n <= Z.of_nat (length dst) -> n <= Z.of_nat (length src) ->
  memcpy dst src n w = Ok (take (Z.to_nat n) src ++ drop (Z.to_nat n) dst) w.
Proof.
  intros H0 H1. unfold memcpy.
  destruct (Z.leb_spec n (Z.of_nat (length dst))); [|lia].
  destruct (Z.leb_spec n (Z.of_nat (length src))); [|lia].
  reflexivity.
Qed.

(** Equality of outcomes that differ in arithmetic fields only. *)
Ltac eq_fields := repeat first [reflexivity | lia | progress f_equal].

Lemma steps_sweep ns clk rest :
  clock_sweep ns clk rest ->
  forall l t loc w,
    length l = length ns ->
    clock w = clk ->
    0 <= found_stations loc ->
    found_stations loc + Z.of_nat (length l)
      <= Z.of_nat (length (stations_out loc)) ->
    Z.of_nat (length (stations_out loc)) < 2 ^ 32 ->
    let d := discovered (power w) (reads w) l ns in
    exists out so,
      steps scan_step l (Some t, loc) w =
      Ok (Some (Ctx (top_block t) (tuned_after l (rtl_source t))
                    (station_list t) (station_list_len t)),
          Locals (found_stations loc + Z.of_nat (length d)) out)
         (World rest (power w) (reads w + sum_list ns)%nat
                (slept w + SWITCH_DELAY_MS * Z.of_nat (length l))
                so (junk w))
      /\ length out = length (stations_out loc)
      /\ take (Z.to_nat (found_stations loc) + length d)%nat out =
         take (Z.to_nat (found_stations loc)) (stations_out loc) ++ d.
Proof.
  induction 1 as [clk|start inside stop clk ns rest Hin Hout Hsw IH];
    intros l t loc w Hlen Hclk Hf0 Hf1 Hcap d.
  - destruct l; [|discriminate]. subst d. cbn [discovered steps ret length].
    exists (stations_out loc), (stdout w).
    destruct t, loc, w; cbn in *. subst.
    rewrite Z.add_0_r, !Nat.add_0_r, Z.mul_0_r, Z.add_0_r, app_nil_r.
    repeat split; reflexivity.
  - destruct l as [|f l]; [discriminate|].
    cbn [length] in Hlen, Hf1. injection Hlen as Hlen.
    cbn [steps]. unfold bind at 1.
    rewrite (scan_step_window f t loc w start inside stop clk Hclk Hin Hout).
    subst d. cbn [discovered].
    set (t1 := set_center_freq (mul f d_1e6) t).
    set (s := samples (power w) (mul f d_1e6) (reads w) (length inside)).
    destruct (detects s).
    + unfold bind at 1 2, printf, ret.
      cbn [clock power reads slept stdout junk].
      rewrite array_store_in by lia.
      rewrite wrap32_small by lia.
      match goal with |- context [steps scan_step l (Some t1, ?loc1) ?w1] =>
        destruct (IH l t1 loc1 w1) as (out & so & Hrun & Hlo & Htake);
          cbn [found_stations stations_out clock power reads slept stdout junk];
          rewrite ?length_insert; try lia; try reflexivity
      end.
      cbn [found_stations stations_out clock power reads slept stdout junk]
        in Hrun, Hlo, Htake.
      rewrite length_insert in Hlo.
      exists out, so. rewrite Hrun. split; [|split].
      * cbn [app length sum_list sum_list_with id tuned_after fold_left
               top_block rtl_source
               station_list station_list_len t1 set_center_freq].
        eq_fields.
      * exact Hlo.
      * cbn [app length].
        replace (Z.to_nat (found_stations loc) + S _)%nat
          with (Z.to_nat (found_stations loc + 1) + length
                  (discovered (power w) (reads w + length inside) l ns))%nat
          by lia.
        rewrite Htake.
        replace (Z.to_nat (found_stations loc + 1))
          with (S (Z.to_nat (found_stations loc))) by lia.
        erewrite take_S_r
          by (apply list_lookup_insert_eq; lia).
        rewrite take_insert_ge by lia.
        now rewrite <- app_assoc.
    + destruct (IH l t1 loc
                  (World clk (power w) (reads w + length inside)%nat
                         (slept w + SWITCH_DELAY_MS) (stdout w) (junk w)))
        as (out & so & Hrun & Hlo & Htake);
        cbn [clock power reads slept stdout junk]; try lia; try reflexivity.
      cbn [clock power reads slept stdout junk] in Hrun, Hlo, Htake.
      exists out, so. rewrite Hrun. split; [|split].
      * cbn [app length sum_list sum_list_with id tuned_after fold_left
               top_block rtl_source
               station_list station_list_len t1 set_center_freq].
        eq_fields.
      * exact Hlo.
      * exact Htake.
Qed.

Lemma band_last : last band = Some d_last.
Proof. vm_compute. reflexivity. Qed.

Lemma tuned_after_band (hz : double) : tuned_after band hz = mul d_last d_1e6.
Proof. vm_compute. reflexivity. Qed.

Lemma discovered_sublist pw (l : list double) :
  forall r ns, sublist (discovered pw r l ns) l.
Proof.
  induction l as [|f l IH]; intros r ns; cbn [discovered].
  - constructor.
  - destruct ns as [|n ns]; [apply sublist_nil_l|].
    destruct (detects _); cbn [app].
    + apply sublist_skip, IH.
    + apply sublist_cons, IH.
Qed.

Lemma discovered_length pw r l ns :
  (length (discovered pw r l ns) <= length l)%nat.
Proof. apply sublist_length, discovered_sublist. Qed.

(** The scanner on a clock that carries the hundred windows of a sweep:
    it returns, and the context holds the stations [discovered]. *)
Lemma scan_fm_stations_spec t w ns rest :
  clock_sweep ns (clock w) rest ->
  length ns = 100%nat ->
  ctx_wf t ->
  let d := discovered (power w) (reads w) band ns in
  exists so,
    scan_fm_stations (Some t) w =
    Ok (Some (Ctx (top_block t) (mul d_last d_1e6)
                  (d ++ drop (length d) (station_list t))
                  (Z.of_nat (length d))))
       (World rest (power w) (reads w + sum_list ns)%nat
              (slept w + 100000) so (junk w)).
Proof.
  intros Hclk Hns [Hwf _] d.
  pose proof (discovered_length (power w) (reads w) band ns) as Hd.
  fold d in Hd. rewrite band_length in Hd.
  unfold scan_fm_stations, bind at 1 2, printf.
  rewrite sweep_band.
  set (w1 := World _ _ _ _ _ _).
  set (loc := Locals _ _).
  destruct (steps_sweep ns (clock w) rest Hclk band t loc w1)
    as (out & so & Hrun & Hlo & Htake).
  { now rewrite band_length. }
  { reflexivity. }
  { subst loc. cbn [found_stations]. lia. }
  { subst loc. cbn [found_stations stations_out].
    rewrite length_replicate, band_length. unfold MAX_FM_STATIONS. lia. }
  { subst loc. cbn [stations_out]. rewrite length_replicate.
    unfold MAX_FM_STATIONS. lia. }
  rewrite Hrun. subst loc w1.
  cbn [found_stations stations_out clock power reads slept stdout junk]
    in Hlo, Htake |- *.
  fold d in Htake |- *. rewrite length_replicate in Hlo.
  unfold bind at 1 2 3, deref, ret.
  cbn [station_list top_block rtl_source station_list_len].
  rewrite memcpy_in
    by (rewrite ?Hwf, ?Hlo; unfold MAX_FM_STATIONS; lia).
  unfold printf, ret. cbn [clock power reads slept stdout junk].
  rewrite tuned_after_band, band_length.
  exists (Printf "Finished scan\n" [] :: so).
  replace (Z.to_nat (0 + Z.of_nat (length d))) with (length d) by lia.
  change (Z.to_nat 0) with 0%nat in Htake. cbn [Nat.add take app] in Htake.
  rewrite Htake.
  eq_fields.
Qed.

(** The stations of the context after a scan. *)
Lemma stations_after_scan t d hz tb :
  stations (Ctx tb hz (d ++ drop (length d) (station_list t))
                (Z.of_nat (length d))) = d.
Proof.
  unfold stations. cbn [station_list station_list_len].
  rewrite Nat2Z.id. now rewrite take_app_length.
Qed.

(** [rtl_get_fm_stations] on such a clock and with room in the array of
    the caller. *)
Lemma rtl_get_fm_stations_spec t buf w ns rest :
  clock_sweep ns (clock w) rest ->
  length ns = 100%nat ->
  ctx_wf t ->
  let d := discovered (power w) (reads w) band ns in
  (length d <= length buf)%nat ->
  exists so,
    rtl_get_fm_stations (Some t) buf w =
    Ok (Z.of_nat (length d), d ++ drop (length d) buf,
        Some (Ctx (top_block t) (mul d_last d_1e6)
                  (d ++ drop (length d) (station_list t))
                  (Z.of_nat (length d))))
       (World rest (power w) (reads w + sum_list ns)%nat
              (slept w + 100000) so (junk w)).
Proof.
  intros Hclk Hns Hwf d Hbuf.
  destruct (scan_fm_stations_spec t w ns rest Hclk Hns Hwf) as (so & Hrun).
  fold d in Hrun.
  unfold rtl_get_fm_stations, bind at 1. rewrite Hrun.
  unfold bind, deref, ret. cbn [station_list station_list_len].
  rewrite memcpy_in.
  - exists so. rewrite Nat2Z.id, take_app_length. reflexivity.
  - lia.
  - rewrite length_app. lia.
Qed.

(** ** Clocks that end too early *)

(** Either a clock opens with the readings of a window, or the polling
    loop runs out of clock. *)
Lemma measure_inv (clk : list Z) (start : Z) :
  (exists inside stop rest,
      clk = inside ++ stop :: rest /\
      Forall (fun t => elapsed_ms start t < MEASURE_MS) inside /\
      MEASURE_MS <= elapsed_ms start stop)
  \/ (forall hz sum n w, measure clk start hz sum n w = Fault ClockExhausted).
Proof.
  induction clk as [|t clk IH].
  - right. reflexivity.
  - destruct (Z.ltb_spec (elapsed_ms start t) MEASURE_MS) as [Hlt|Hge].
    + destruct IH as [(inside & stop & rest & -> & Hin & Hout)|Hf].
      * left. exists (t :: inside), stop, rest.
        split; [reflexivity|]. split; [now constructor|assumption].
      * right. intros hz sum n w. cbn [measure].
        destruct (Z.ltb_spec (elapsed_ms start t) MEASURE_MS); [|lia].
        unfold level. apply Hf.
    + left. exists [], t, clk. repeat split; [constructor|assumption].
Qed.

Lemma scan_step_exhausted freq t loc w :
  match clock w with
  | [] => True
  | start :: clk =>
      forall hz sum n w, measure clk start hz sum n w = Fault ClockExhausted
  end ->
  scan_step freq (Some t, loc) w = Fault ClockExhausted.
Proof.
  intros H.
  unfold scan_step, bind at 1 2 3 4, rtl_set_fm, deref, ret, sleep_for, now.
  cbn [bind clock power reads slept stdout junk]. unfold bind at 1. cbn [ret].
  destruct (clock w) as [|start clk]; [reflexivity|].
  unfold set_clock. cbn [clock]. now rewrite H.
Qed.

(** A sweep over [l] either finds its windows on the clock or runs out
    of clock; it never leaves its array. *)
Lemma steps_outcome (l : list double) :
  forall t loc w,
    0 <= found_stations loc ->
    found_stations loc + Z.of_nat (length l)
      <= Z.of_nat (length (stations_out loc)) ->
    Z.of_nat (length (stations_out loc)) < 2 ^ 32 ->
    (exists ns rest, clock_sweep ns (clock w) rest /\ length ns = length l)
    \/ steps scan_step l (Some t, loc) w = Fault ClockExhausted.
Proof.
  induction l as [|f l IH]; intros t loc w Hf0 Hf1 Hcap.
  - left. exists [], (clock w). split; [constructor|reflexivity].
  - cbn [length] in Hf1. cbn [steps]. unfold bind at 1.
    destruct (clock w) as [|start clk] eqn:Hclk.
    { right. rewrite scan_step_exhausted; [reflexivity|now rewrite Hclk]. }
    destruct (measure_inv clk start)
      as [(inside & stop & rest & -> & Hin & Hout)|Hf].
    2:{ right. rewrite scan_step_exhausted; [reflexivity|now rewrite Hclk]. }
    rewrite (scan_step_window f t loc w start inside stop rest Hclk Hin Hout).
    destruct (detects _).
    + unfold bind at 1 2, printf, ret.
      cbn [clock power reads slept stdout junk].
      rewrite array_store_in by lia.
      rewrite wrap32_small by lia.
      match goal with |- context [steps scan_step l (Some ?t1, ?loc1) ?w1] =>
        destruct (IH t1 loc1 w1) as [(ns & rest' & Hsw & Hlen)|Hfault];
          cbn [found_stations stations_out clock] in *;
          rewrite ?length_insert; try lia
      end.
      * left. exists (length inside :: ns), rest'.
        split; [now constructor | cbn [length]; now rewrite Hlen].
      * right. exact Hfault.
    + match goal with |- context [steps scan_step l (Some ?t1, ?loc1) ?w1] =>
        destruct (IH t1 loc1 w1) as [(ns & rest' & Hsw & Hlen)|Hfault];
          cbn [found_stations stations_out clock] in *; try lia
      end.
      * left. exists (length inside :: ns), rest'.
        split; [now constructor | cbn [length]; now rewrite Hlen].
      * right. exact Hfault.
Qed.

(** A scan either finds the hundred windows of its sweep on the clock,
    or runs out of clock. *)
Lemma scan_fm_stations_outcome t w :
  (exists ns rest, clock_sweep ns (clock w) rest /\ length ns = 100%nat)
  \/ scan_fm_stations (Some t) w = Fault ClockExhausted.
Proof.
  unfold scan_fm_stations, bind at 1 2, printf.
  rewrite sweep_band.
  match goal with |- context [steps scan_step band (Some t, ?loc1) ?w1] =>
    destruct (steps_outcome band t loc1 w1) as [(ns & rest & Hsw & Hlen)|Hf]
  end.
  - cbn [found_stations]. lia.
  - cbn [found_stations stations_out].
    rewrite length_replicate, band_length. unfold MAX_FM_STATIONS. lia.
  - cbn [stations_out]. rewrite length_replicate.
    unfold MAX_FM_STATIONS. lia.
  - left. exists ns, rest. now rewrite <- band_length.
  - right. now rewrite Hf.
Qed.

(** ** Detection *)

Lemma band_NoDup : NoDup band.
Proof. apply (bool_decide_unpack (NoDup band)). vm_compute. reflexivity. Qed.

(** On a window of fewer than [2^32] samples the counter of the loop
    does not wrap, and the code decides as the specification words it. *)
Lemma detects_spec (l : list double) :
  Z.of_nat (length l) < 2 ^ 32 -> detects l = spec_detects l.
Proof.
  intros Hl. unfold detects, spec_detects, arithmetic_mean.
  rewrite wrap32_small by lia.
  destruct l as [|x l]; [reflexivity|].
  cbn [length]. destruct (Z.ltb_spec 0 (Z.of_nat (S (length l)))); [|lia].
  reflexivity.
Qed.

Lemma samples_const pw c hz r n :
  (forall hz i, pw hz i = c) -> samples pw hz r n = replicate n c.
Proof.
  intros Hc. unfold samples. revert r.
  induction n as [|n IH]; intros r; cbn [seq map replicate]; [reflexivity|].
  now rewrite Hc, IH.
Qed.

Lemma discovered_all pw (l : list double) :
  forall r ns,
    length l = length ns ->
    (forall f r n, f ∈ l -> n ∈ ns -> detects (samples pw (mul f d_1e6) r n) = true) ->
    discovered pw r l ns = l.
Proof.
  induction l as [|f l IH]; intros r ns Hlen Hdet; [reflexivity|].
  destruct ns as [|n ns]; [discriminate|]. cbn [discovered].
  rewrite Hdet by constructor. cbn [app]. f_equal.
  apply IH; [now injection Hlen|].
  intros g r' n' Hg Hn. apply Hdet; now constructor.
Qed.

Lemma discovered_none pw (l : list double) :
  forall r ns,
    (forall f r n, f ∈ l -> n ∈ ns -> detects (samples pw (mul f d_1e6) r n) = false) ->
    discovered pw r l ns = [].
Proof.
  induction l as [|f l IH]; intros r ns Hdet; [reflexivity|].
  destruct ns as [|n ns]; [reflexivity|]. cbn [discovered].
  rewrite Hdet by constructor. cbn [app].
  apply IH. intros g r' n' Hg Hn. apply Hdet; now constructor.
Qed.

(** A candidate is among the stations discovered exactly when its own
    window detects it. *)
Lemma discovered_elem pw (l : list double) :
  NoDup l ->
  forall r ns i f n,
    l !! i = Some f -> ns !! i = Some n ->
    f ∈ discovered pw r l ns <->
    detects (samples pw (mul f d_1e6) (r + sum_list (take i ns)) n) = true.
Proof.
  induction 1 as [|g l Hg Hnd IH]; intros r ns i f n Hl Hn; [discriminate|].
  destruct ns as [|m ns]; [destruct i; discriminate|].
  cbn [discovered]. destruct i as [|i]; cbn in Hl, Hn.
  - injection Hl as ->. injection Hn as ->.
    cbn [take sum_list sum_list_with]. rewrite Nat.add_0_r.
    assert (f ∉ discovered pw (r + n) l ns) as Hnot.
    { intros Hin. apply Hg.
      eapply elem_of_sublist; [exact Hin|apply discovered_sublist]. }
    destruct (detects _).
    + split; [reflexivity|]. intros _. cbn [app]. constructor.
    + cbn [app]. split; [contradiction|discriminate].
  - assert (f <> g) as Hne.
    { intros ->. apply Hg. eapply list_elem_of_lookup_2; exact Hl. }
    cbn [take sum_list sum_list_with id].
    rewrite Nat.add_assoc, <- (IH (r + m)%nat ns i f n Hl Hn).
    destruct (detects _); cbn [app]; [|reflexivity].
    rewrite elem_of_cons. tauto.
Qed.

(** ** Demonstration inputs *)

Lemma steady_clock_sweep (ns : list nat) :
  forall t0, clock_sweep ns (steady_clock t0 ns) [].
Proof.
  induction ns as [|n ns IH]; intros t0; cbn [steady_clock app].
  - constructor.
  - rewrite <- app_assoc. cbn [app].
    pose proof (sweep_window t0 (replicate n t0) (t0 + 200000000)
                  (steady_clock (t0 + 1200000000) ns) ns []) as Hw.
    rewrite length_replicate in Hw. apply Hw.
    + apply Forall_replicate. unfold elapsed_ms.
      rewrite Z.sub_diag. reflexivity.
    + unfold elapsed_ms.
      replace (t0 + 200000000 - t0) with 200000000 by lia.
      discriminate.
    + apply IH.
Qed.

Lemma demo_ctx_wf : ctx_wf demo_ctx.
Proof.
  split; [reflexivity|].
  unfold demo_ctx, MAX_FM_STATIONS. cbn [station_list_len]. lia.
Defined.

(** ** Rounding to nearest *)

Lemma digits2_pos_bounds (p : positive) :
  2 ^ (Z.pos (digits2_pos p) - 1) <= Z.pos p < 2 ^ Z.pos (digits2_pos p).
Proof.
  induction p as [p IH|p IH|]; cbn [digits2_pos].
  - rewrite Pos2Z.inj_succ. change (Z.pos p~1) with (2 * Z.pos p + 1).
    replace (Z.succ (Z.pos (digits2_pos p)) - 1)
      with (Z.pos (digits2_pos p)) by lia.
    rewrite Z.pow_succ_r by lia.
    replace (2 ^ Z.pos (digits2_pos p))
      with (2 * 2 ^ (Z.pos (digits2_pos p) - 1)) in *
      by (rewrite <- Z.pow_succ_r by lia; f_equal; lia).
    lia.
  - rewrite Pos2Z.inj_succ. change (Z.pos p~0) with (2 * Z.pos p).
    replace (Z.succ (Z.pos (digits2_pos p)) - 1)
      with (Z.pos (digits2_pos p)) by lia.
    rewrite Z.pow_succ_r by lia.
    replace (2 ^ Z.pos (digits2_pos p))
      with (2 * 2 ^ (Z.pos (digits2_pos p) - 1)) in *
      by (rewrite <- Z.pow_succ_r by lia; f_equal; lia).
    lia.
  - cbn. lia.
Qed.

Lemma digits2_pos_unique (p : positive) (d : Z) :
  2 ^ (d - 1) <= Z.pos p < 2 ^ d -> Z.pos (digits2_pos p) = d.
Proof.
  intros [Hlo Hhi].
  pose proof (digits2_pos_bounds p) as [Hlo' Hhi'].
  assert (0 < d) as Hd.
  { destruct (Z_lt_le_dec 0 d) as [H|H]; [exact H|].
    destruct (Z.eq_dec d 0) as [->|Hne].
    - cbn in Hhi. lia.
    - rewrite Z.pow_neg_r in Hhi by lia. lia. }
  destruct (Z_lt_le_dec (Z.pos (digits2_pos p)) d) as [Hlt|Hge].
  - assert (2 ^ Z.pos (digits2_pos p) <= 2 ^ (d - 1))
      by (apply Z.pow_le_mono_r; lia). lia.
  - destruct (Z.eq_dec (Z.pos (digits2_pos p)) d) as [Heq|Hne]; [exact Heq|].
    assert (2 ^ d <= 2 ^ (Z.pos (digits2_pos p) - 1))
      by (apply Z.pow_le_mono_r; lia). lia.
Qed.

Lemma iter_pos_nat {A} (f : A -> A) (p : positive) (x : A) :
  SpecFloat.iter_pos f p x = Nat.iter (Pos.to_nat p) f x.
Proof.
  revert x. induction p as [p IH|p IH|]; intros x; cbn [SpecFloat.iter_pos].
  - rewrite !IH, Pos2Nat.inj_xI.
    replace (S (2 * Pos.to_nat p)) with (Pos.to_nat p + (Pos.to_nat p + 1))%nat
      by lia.
    rewrite !Nat.iter_add. reflexivity.
  - rewrite !IH, Pos2Nat.inj_xO.
    replace (2 * Pos.to_nat p)%nat with (Pos.to_nat p + Pos.to_nat p)%nat
      by lia.
    rewrite Nat.iter_add. reflexivity.
  - reflexivity.
Qed.

Lemma shr_1_nonneg (m : Z) (r s : bool) :
  0 <= m ->
  shr_1 (Build_shr_record m r s) = Build_shr_record (m / 2) (Z.odd m) (r || s).
Proof.
  intros Hm. destruct m as [|p|p]; [reflexivity| |lia].
  destruct p as [p|p|]; cbn [shr_1].
  - f_equal. change (Z.pos p~1) with (2 * Z.pos p + 1).
    apply (Z.div_unique_pos _ _ _ 1); lia.
  - f_equal. change (Z.pos p~0) with (2 * Z.pos p).
    apply (Z.div_unique_pos _ _ _ 0); lia.
  - reflexivity.
Qed.

Lemma shr_nat (mrs : shr_record) (e : Z) (k : nat) :
  shr mrs e (Z.of_nat k) = (Nat.iter k shr_1 mrs, e + Z.of_nat k).
Proof.
  destruct k as [|k].
  - cbn [Z.of_nat shr Nat.iter nat_rect]. rewrite Z.add_0_r. reflexivity.
  - change (Z.of_nat (S k)) with (Z.pos (Pos.of_succ_nat k)). unfold shr.
    rewrite iter_pos_nat, SuccNat2Pos.id_succ. reflexivity.
Qed.

Lemma shr_iter (k : nat) (mx den rnum : Z) (r0 s0 : bool) :
  0 <= mx -> 0 < den -> 0 <= rnum < den ->
  (r0 = true <-> den <= 2 * rnum) ->
  (s0 = true <-> (2 * rnum) mod den <> 0) ->
  exists r s,
    Nat.iter k shr_1 (Build_shr_record mx r0 s0)
    = Build_shr_record (mx / 2 ^ Z.of_nat k) r s /\
    0 <= (mx mod 2 ^ Z.of_nat k) * den + rnum < 2 ^ Z.of_nat k * den /\
    (r = true <-> 2 ^ Z.of_nat k * den
                  <= 2 * ((mx mod 2 ^ Z.of_nat k) * den + rnum)) /\
    (s = true <-> (2 * ((mx mod 2 ^ Z.of_nat k) * den + rnum))
                  mod (2 ^ Z.of_nat k * den) <> 0).
Proof.
  intros Hmx Hden Hrnum Hr0 Hs0. induction k as [|k IH].
  - exists r0, s0. change (2 ^ Z.of_nat 0) with 1.
    rewrite Z.div_1_r, Z.mod_1_r, Z.mul_0_l, Z.add_0_l, Z.mul_1_l.
    cbn [Nat.iter nat_rect]. auto.
  - destruct IH as (r & s & Hit & HR & Hr & Hs).
    rewrite Nat2Z.inj_succ, Z.pow_succ_r by lia.
    set (P := 2 ^ Z.of_nat k) in *.
    assert (0 < P) as HP by (apply Z.pow_pos_nonneg; lia).
    change (Nat.iter (S k) shr_1 (Build_shr_record mx r0 s0))
      with (shr_1 (Nat.iter k shr_1 (Build_shr_record mx r0 s0))).
    rewrite Hit, shr_1_nonneg by (apply Z.div_pos; lia).
    exists (Z.odd (mx / P)), (r || s).
    rewrite Z.div_div by lia.
    rewrite (Z.mul_comm 2 P), Z.rem_mul_r by lia.
    pose proof (Zmod_odd (mx / P)) as Hodd.
    set (R := mx mod P * den + rnum) in *.
    set (D := P * den) in *.
    assert (0 < D) as HD by (subst D; nia).
    replace ((mx mod P + P * ((mx / P) mod 2)) * den + rnum)
      with (R + (mx / P) mod 2 * D) by (subst R D; ring).
    replace (P * 2 * den) with (2 * D) by (subst D; ring).
    split; [reflexivity|].
    destruct (Z.odd (mx / P)); rewrite Hodd.
    + replace (R + 1 * D) with (R + D) by ring.
      assert ((2 * (R + D)) mod (2 * D) = 2 * R) as ->
        by (symmetry; apply (Z.mod_unique_pos _ _ 1); lia).
      split; [lia|]. split; [split; [lia|reflexivity]|].
      rewrite orb_true_iff, Hr, Hs. split.
      * intros [H|H]; [lia|]. intros H0.
        assert (R = 0) as -> by lia. apply H. apply Z.mod_0_l. lia.
      * intros HR0. destruct (Z_le_gt_dec D (2 * R)) as [H|H]; [left; exact H|].
        right. rewrite Z.mod_small by lia. lia.
    + replace (R + 0 * D) with R by ring.
      assert ((2 * R) mod (2 * D) = 2 * R) as ->
        by (apply Z.mod_small; lia).
      split; [lia|]. split; [split; [discriminate|lia]|].
      rewrite orb_true_iff, Hr, Hs. split.
      * intros [H|H]; [lia|]. intros H0.
        assert (R = 0) as -> by lia. apply H. apply Z.mod_0_l. lia.
      * intros HR0. destruct (Z_le_gt_dec D (2 * R)) as [H|H]; [left; exact H|].
        right. rewrite Z.mod_small by lia. lia.
Qed.

Lemma round_nearest_even_spec (a R D : Z) (r s : bool) :
  0 < D -> 0 <= R < D ->
  (r = true <-> D <= 2 * R) ->
  (s = true <-> (2 * R) mod D <> 0) ->
  a <= round_nearest_even a (loc_of_shr_record (Build_shr_record a r s))
    <= a + 1 /\
  2 * Z.abs (round_nearest_even a
               (loc_of_shr_record (Build_shr_record a r s)) * D
             - (a * D + R)) <= D.
Proof.
  intros HD HR Hr Hs.
  destruct r, s; cbn [loc_of_shr_record round_nearest_even].
  - assert (D <= 2 * R) by (apply Hr; reflexivity). split; lia.
  - assert (D <= 2 * R) by (apply Hr; reflexivity).
    assert ((2 * R) mod D = 0) as H0.
    { destruct (Z.eq_dec ((2 * R) mod D) 0) as [E|E]; [exact E|].
      apply Hs in E. discriminate. }
    assert (2 * R = D) as HRD.
    { assert ((2 * R) mod D = 2 * R - D) as E
        by (symmetry; apply (Z.mod_unique_pos _ _ 1); lia).
      lia. }
    destruct (Z.even a); split; lia.
  - assert (~ D <= 2 * R) by (intros H; apply Hr in H; discriminate).
    split; lia.
  - assert (~ D <= 2 * R) by (intros H; apply Hr in H; discriminate).
    assert ((2 * R) mod D = 0) as H0.
    { destruct (Z.eq_dec ((2 * R) mod D) 0) as [E|E]; [exact E|].
      apply Hs in E. discriminate. }
    rewrite Z.mod_small in H0 by lia. split; lia.
Qed.

Lemma shr_record_of_loc_spec (m rnum den : Z) (l : location) :
  0 < den -> 0 <= rnum < den -> loc_matches l rnum den ->
  exists r0 s0,
    shr_record_of_loc m l = Build_shr_record m r0 s0 /\
    (r0 = true <-> den <= 2 * rnum) /\
    (s0 = true <-> (2 * rnum) mod den <> 0).
Proof.
  intros Hden Hrnum Hl. destruct l as [|[| |]]; cbn [loc_matches] in Hl.
  - subst rnum. exists false, false. split; [reflexivity|].
    rewrite Z.mul_0_r, Z.mod_0_l by lia. split; split; intros; try discriminate; try reflexivity; lia.
  - destruct Hl as [Hne Hc]. rewrite Z.compare_eq_iff in Hc.
    exists true, false. split; [reflexivity|].
    rewrite Hc, Z.mod_same by lia. split; split; intros; try discriminate; try reflexivity; lia.
  - destruct Hl as [Hne Hc]. rewrite Z.compare_lt_iff in Hc.
    exists false, true. split; [reflexivity|].
    rewrite Z.mod_small by lia. split; split; intros; try discriminate; try reflexivity; lia.
  - destruct Hl as [Hne Hc]. rewrite Z.compare_gt_iff in Hc.
    exists true, true. split; [reflexivity|].
    assert ((2 * rnum) mod den = 2 * rnum - den) as ->
      by (symmetry; apply (Z.mod_unique_pos _ _ 1); lia).
    split; split; intros; try discriminate; try reflexivity; lia.
Qed.

Lemma Zdigits2_pos (p : positive) (d : Z) :
  2 ^ (d - 1) <= Z.pos p < 2 ^ d -> Zdigits2 (Z.pos p) = d.
Proof. intros H. cbn [Zdigits2]. apply digits2_pos_unique, H. Qed.

Lemma fexp_normal (x : Z) : -1021 <= x -> fexp prec emax x = x - 53.
Proof. intros H. unfold fexp, emin, prec, emax. lia. Qed.

Lemma pow2_lt_exp (a b : Z) : 0 <= b -> 2 ^ a < 2 ^ b -> a < b.
Proof. intros Hb H. apply (Z.pow_lt_mono_r_iff 2); [lia|exact Hb|exact H]. Qed.

(** Rounding a positive significand [mx] (followed by the fraction
    [rnum / den] that [lx] describes) at exponent [ex] drops [k] bits and
    rounds to nearest: [k] is the shift to 53 bits, or to the smallest
    exponent [-1074] of the format. *)
Lemma binary_round_aux_spec (sx : bool) (mx : positive) (ex : Z)
    (lx : location) (k : nat) (den rnum : Z) :
  2 ^ Z.of_nat k <= Z.pos mx < 2 ^ (53 + Z.of_nat k) ->
  -1074 <= ex + Z.of_nat k ->
  (2 ^ (52 + Z.of_nat k) <= Z.pos mx \/ ex + Z.of_nat k = -1074) ->
  0 < den -> 0 <= rnum < den -> loc_matches lx rnum den ->
  exists (mz : positive) (j : Z),
    binary_round_aux prec emax sx (Z.pos mx) ex lx
    = (if ex + Z.of_nat k + j <=? 971
       then S754_finite sx mz (ex + Z.of_nat k + j)
       else S754_infinity sx) /\
    (j = 0 \/ j = 1 /\ Z.pos mz = 2 ^ 52) /\
    Z.pos mz < 2 ^ 53 /\
    (2 ^ (52 + Z.of_nat k) <= Z.pos mx -> 2 ^ 52 <= Z.pos mz) /\
    2 * Z.abs (Z.pos mz * 2 ^ j * (2 ^ Z.of_nat k * den)
               - (Z.pos mx * den + rnum))
    <= 2 ^ Z.of_nat k * den.
Proof.
  intros Hmx Hlo Hreg Hden Hrnum Hl.
  unfold binary_round_aux, shr_fexp. cbn [Zdigits2].
  pose proof (digits2_pos_bounds mx) as Hd.
  assert (Z.pos (digits2_pos mx) <= 53 + Z.of_nat k) as Hdhi.
  { assert (Z.pos (digits2_pos mx) - 1 < 53 + Z.of_nat k)
      by (apply pow2_lt_exp; lia). lia. }
  assert (2 ^ (52 + Z.of_nat k) <= Z.pos mx ->
          Z.pos (digits2_pos mx) = 53 + Z.of_nat k) as Hdlo.
  { intros H. assert (52 + Z.of_nat k < Z.pos (digits2_pos mx))
      by (apply pow2_lt_exp; lia). lia. }
  replace (fexp prec emax (Z.pos (digits2_pos mx) + ex) - ex)
    with (Z.of_nat k)
    by (unfold fexp, emin, prec, emax; destruct Hreg as [H|H];
        [apply Hdlo in H|]; lia).
  clear Hd Hdhi Hdlo.
  rewrite shr_nat.
  destruct (shr_record_of_loc_spec (Z.pos mx) rnum den lx Hden Hrnum Hl)
    as (r0 & s0 & -> & Hr0 & Hs0).
  destruct (shr_iter k (Z.pos mx) den rnum r0 s0 ltac:(lia) Hden Hrnum Hr0 Hs0)
    as (r & s & -> & HR & Hr & Hs).
  cbn [shr_m].
  set (P := 2 ^ Z.of_nat k) in *.
  assert (0 < P) as HP by (apply Z.pow_pos_nonneg; lia).
  rewrite !Z.pow_add_r in * by lia. fold P in Hmx, Hreg |- *.
  change (2 ^ 52) with 4503599627370496 in *.
  change (2 ^ 53) with 9007199254740992 in *.
  pose proof (Z.div_mod (Z.pos mx) P ltac:(lia)) as Hdm.
  pose proof (Z.mod_pos_bound (Z.pos mx) P HP) as Hmod.
  set (a := Z.pos mx / P) in *.
  set (b := Z.pos mx mod P) in *.
  assert (1 <= a < 9007199254740992) as Ha by nia.
  assert (4503599627370496 * P <= Z.pos mx -> 4503599627370496 <= a)
    as HaN by nia.
  assert (0 < P * den) as HD by nia.
  destruct (round_nearest_even_spec a (b * den + rnum) (P * den) r s
              HD HR Hr Hs) as [Hy Herr].
  set (y := round_nearest_even a
              (loc_of_shr_record (Build_shr_record a r s))) in *.
  replace (a * (P * den) + (b * den + rnum)) with (Z.pos mx * den + rnum)
    in Herr by (rewrite Hdm; ring).
  destruct y as [|py|py] eqn:Ey; [lia| |lia].
  destruct (Z_lt_le_dec (Z.pos py) 9007199254740992) as [Hlt|Hge].
  - pose proof (digits2_pos_bounds py) as Hd.
    assert (Z.pos (digits2_pos py) <= 53) as Hdhi.
    { assert (Z.pos (digits2_pos py) - 1 < 53)
        by (apply pow2_lt_exp;
            [lia|change (2 ^ 53) with 9007199254740992; lia]). lia. }
    assert (4503599627370496 <= Z.pos py -> Z.pos (digits2_pos py) = 53)
      as Hdlo.
    { intros H. assert (52 < Z.pos (digits2_pos py))
        by (apply pow2_lt_exp;
            [lia|change (2 ^ 52) with 4503599627370496; lia]). lia. }
    cbn [Zdigits2]. change (emax - prec) with 971.
    replace (fexp prec emax (Z.pos (digits2_pos py) + (ex + Z.of_nat k))
             - (ex + Z.of_nat k)) with 0
      by (unfold fexp, emin, prec, emax; destruct Hreg as [H|H];
          [apply HaN in H; assert (4503599627370496 <= Z.pos py) as H' by lia;
           apply Hdlo in H'|]; lia).
    cbn [shr shr_record_of_loc shr_m].
    exists py, 0. rewrite Z.add_0_r.
    split; [reflexivity|]. split; [left; reflexivity|].
    split; [exact Hlt|]. split; [intros H; apply HaN in H; lia|].
    change (2 ^ 0) with 1. rewrite Z.mul_1_r. exact Herr.
  - assert (py = 9007199254740992%positive) as -> by lia.
    change (Zdigits2 9007199254740992) with 54.
    change (emax - prec) with 971.
    replace (fexp prec emax (54 + (ex + Z.of_nat k)) - (ex + Z.of_nat k))
      with 1 by (unfold fexp, emin, prec, emax; lia).
    cbn [shr shr_record_of_loc shr_m SpecFloat.iter_pos shr_1].
    exists 4503599627370496%positive, 1.
    split; [reflexivity|]. split; [right; split; reflexivity|].
    split; [lia|]. split; [lia|]. change (2 ^ 1) with 2.
    replace (4503599627370496 * 2) with 9007199254740992 by reflexivity.
    exact Herr.
Qed.

Ltac pow2 :=
  repeat match goal with
  | |- context [2 ^ ?x] =>
      let v := eval vm_compute in (2 ^ x) in change (2 ^ x) with v
  | H : context [2 ^ ?x] |- _ =>
      let v := eval vm_compute in (2 ^ x) in change (2 ^ x) with v in H
  end.

Lemma valid_finite (s : bool) (m : positive) (e : Z) :
  valid_binary prec emax (S754_finite s m e) = true ->
  Z.pos m < 2 ^ 53 /\ e <= 971 /\
  (2 ^ 52 <= Z.pos m /\ -1073 <= e \/ e = -1074).
Proof.
  cbn [valid_binary]. unfold bounded, canonical_mantissa.
  intros H. apply andb_prop in H as [Hc He].
  apply Z.eqb_eq in Hc. apply Z.leb_le in He.
  change (emax - prec) with 971 in He.
  pose proof (digits2_pos_bounds m) as Hd.
  unfold fexp, emin, prec, emax in Hc.
  assert (Z.pos (digits2_pos m) <= 53) as Hd53 by lia.
  assert (2 ^ Z.pos (digits2_pos m) <= 2 ^ 53) as Hp
    by (apply Z.pow_le_mono_r; lia).
  split; [lia|]. split; [exact He|].
  destruct (Z.eq_dec e (-1074)) as [E|E]; [right; exact E|left].
  assert (Z.pos (digits2_pos m) = 53) as Hd' by lia.
  rewrite Hd' in Hd. split; [exact (proj1 Hd)|lia].
Qed.

Lemma mul_1e6_normal (s : bool) (m : positive) (e : Z) :
  2 ^ 52 <= Z.pos m < 2 ^ 53 -> -1073 <= e ->
  exists (my : positive) (k j : Z),
    mul (S754_finite s m e) d_1e6
    = (if e - 33 + k + j <=? 971
       then S754_finite s my (e - 33 + k + j)
       else S754_infinity s) /\
    (k = 52 /\ Z.pos m * 8589934592000000 < 2 ^ 105 \/
     k = 53 /\ 2 ^ 105 <= Z.pos m * 8589934592000000) /\
    (j = 0 \/ j = 1) /\
    2 ^ 52 <= Z.pos my < 2 ^ 53 /\
    2 * Z.abs (Z.pos my * 2 ^ j * 2 ^ k - Z.pos m * 8589934592000000)
    <= 2 ^ k.
Proof.
  intros Hm He.
  change (2 ^ 52) with 4503599627370496 in Hm.
  change (2 ^ 53) with 9007199254740992 in Hm.
  unfold d_1e6.
  change (mul (S754_finite s m e) (S754_finite false 8589934592000000 (-33)))
    with (binary_round_aux prec emax (xorb s false)
            (Z.pos (m * 8589934592000000)) (e + -33) loc_Exact).
  rewrite xorb_false_r.
  assert (exists k1 : nat,
            (k1 = 52%nat /\ Z.pos m * 8589934592000000 < 2 ^ 105 \/
             k1 = 53%nat /\ 2 ^ 105 <= Z.pos m * 8589934592000000) /\
            2 ^ (52 + Z.of_nat k1) <= Z.pos (m * 8589934592000000)
            < 2 ^ (53 + Z.of_nat k1) /\
            2 ^ Z.of_nat k1 <= 2 ^ (52 + Z.of_nat k1))
    as (k1 & Hk1 & Hprod & Hpow).
  { rewrite Pos2Z.inj_mul.
    change (2 ^ 105) with 40564819207303340847894502572032.
    destruct (Z_lt_le_dec (Z.pos m * 8589934592000000)
                40564819207303340847894502572032) as [H|H].
    - exists 52%nat. split; [left; split; [reflexivity|exact H]|].
      pow2. lia.
    - exists 53%nat. split; [right; split; [reflexivity|exact H]|].
      pow2. lia. }
  destruct (binary_round_aux_spec s (m * 8589934592000000) (e + -33)
              loc_Exact k1 1 0 ltac:(lia) ltac:(lia)
              (or_introl (proj1 Hprod)) ltac:(lia) ltac:(lia) eq_refl)
    as (my & j1 & -> & Hj1 & Hmy & Hmy' & Herr1).
  rewrite Pos2Z.inj_mul in Herr1.
  rewrite !Z.mul_1_r, Z.add_0_r in Herr1.
  exists my, (Z.of_nat k1), j1.
  replace (e + -33 + Z.of_nat k1 + j1) with (e - 33 + Z.of_nat k1 + j1) by lia.
  split; [reflexivity|].
  split; [destruct Hk1 as [[-> H]|[-> H]]; [left|right]; split;
          try reflexivity; exact H|].
  split; [lia|]. split; [split; [apply Hmy', Hprod|exact Hmy]|exact Herr1].
Qed.

Lemma mul_1e6_low (s : bool) (m : positive) :
  Z.pos m < 2 ^ 53 ->
  exists (my : positive) (k j : Z),
    mul (S754_finite s m (-1074)) d_1e6
    = S754_finite s my (-1107 + k + j) /\
    33 <= k <= 53 /\
    (j = 0 \/ j = 1 /\ Z.pos my = 2 ^ 52) /\
    Z.pos my < 2 ^ 53 /\
    8589934592000000 <= Z.pos my * 2 ^ j * 2 ^ k /\
    2 * Z.abs (Z.pos my * 2 ^ j * 2 ^ k - Z.pos m * 8589934592000000)
    <= 2 ^ k.
Proof.
  intros Hm.
  change (2 ^ 53) with 9007199254740992 in Hm.
  unfold d_1e6.
  change (mul (S754_finite s m (-1074))
            (S754_finite false 8589934592000000 (-33)))
    with (binary_round_aux prec emax (xorb s false)
            (Z.pos (m * 8589934592000000)) (-1074 + -33) loc_Exact).
  rewrite xorb_false_r.
  assert (exists k1 : nat,
            (k1 = 33%nat \/
             (34 <= k1 <= 53)%nat /\
             2 ^ (52 + Z.of_nat k1) <= Z.pos (m * 8589934592000000)) /\
            2 ^ Z.of_nat k1 <= Z.pos (m * 8589934592000000)
            < 2 ^ (53 + Z.of_nat k1))
    as (k1 & Hk1 & Hprod).
  { destruct (Z_lt_le_dec (Z.pos (m * 8589934592000000)) (2 ^ 86))
      as [H|H].
    - exists 33%nat. split; [left; reflexivity|].
      rewrite Pos2Z.inj_mul in *. pow2. lia.
    - pose proof (digits2_pos_bounds (m * 8589934592000000)) as Hd.
      set (d := Z.pos (digits2_pos (m * 8589934592000000))) in *.
      assert (86 < d) by (apply pow2_lt_exp; lia).
      assert (d - 1 < 106).
      { apply pow2_lt_exp; [lia|].
        rewrite Pos2Z.inj_mul in Hd. pow2. lia. }
      exists (Z.to_nat (d - 53)).
      rewrite Z2Nat.id by lia.
      replace (52 + (d - 53)) with (d - 1) by lia.
      replace (53 + (d - 53)) with d by lia.
      split; [right; split; [lia|exact (proj1 Hd)]|].
      split; [|exact (proj2 Hd)].
      apply Z.le_trans with (2 ^ (d - 1)); [|exact (proj1 Hd)].
      apply Z.pow_le_mono_r; lia. }
  destruct (binary_round_aux_spec s (m * 8589934592000000) (-1074 + -33)
              loc_Exact k1 1 0 Hprod
              ltac:(destruct Hk1 as [->|[H _]]; lia)
              ltac:(destruct Hk1 as [->|[_ H]]; [right; reflexivity|left; exact H])
              ltac:(lia) ltac:(lia) eq_refl)
    as (my & j1 & Hmul & Hj1 & Hmy & Hmy' & Herr1).
  rewrite Pos2Z.inj_mul in Herr1, Hprod, Hk1.
  rewrite !Z.mul_1_r, Z.add_0_r in Herr1.
  assert ((-1074 + -33 + Z.of_nat k1 + j1 <=? 971) = true) as Hle
    by (apply Z.leb_le; destruct Hk1 as [->|[H _]], Hj1 as [->|[-> _]]; lia).
  rewrite Hle in Hmul. rewrite Hmul.
  exists my, (Z.of_nat k1), j1.
  split; [f_equal; lia|].
  split; [destruct Hk1 as [->|[H _]]; lia|].
  split; [exact Hj1|]. split; [exact Hmy|].
  split; [|exact Herr1].
  destruct Hk1 as [->|[Hk1 HN]].
  - destruct Hj1 as [->|[-> Hj1]]; pow2; lia.
  - assert (2 ^ Z.of_nat k1 <= 2 ^ 53) as HX
      by (apply Z.pow_le_mono_r; lia).
    assert (2 ^ 86 <= 2 ^ (52 + Z.of_nat k1)) as HY
      by (apply Z.pow_le_mono_r; lia).
    set (X := 2 ^ Z.of_nat k1) in *.
    set (Y := 2 ^ (52 + Z.of_nat k1)) in *.
    destruct Hj1 as [->|[-> Hj1]]; pow2; lia.
Qed.

Lemma new_location_1e6 (r : Z) :
  loc_matches (new_location 8589934592000000 r) r 8589934592000000.
Proof.
  change (new_location 8589934592000000 r)
    with (new_location_even 8589934592000000 r).
  unfold new_location_even. destruct (Z.eqb_spec r 0) as [E|E].
  - exact E.
  - split; [exact E|reflexivity].
Qed.

Lemma div_1e6_normal (s : bool) (my : positive) (ey : Z) :
  2 ^ 52 <= Z.pos my < 2 ^ 53 -> -1054 <= ey <= 971 ->
  exists (mz : positive) (k j : Z),
    div (S754_finite s my ey) d_1e6 = S754_finite s mz (ey - 20 + k + j) /\
    (k = 0 /\ Z.pos my < 8589934592000000 \/
     k = 1 /\ 8589934592000000 <= Z.pos my) /\
    (j = 0 \/ j = 1) /\
    2 ^ 52 <= Z.pos mz < 2 ^ 53 /\
    2 * Z.abs (Z.pos mz * 2 ^ j * (2 ^ k * 8589934592000000)
               - Z.pos my * 2 ^ 53)
    <= 2 ^ k * 8589934592000000.
Proof.
  intros Hmy He.
  unfold d_1e6, div, SFdiv, SFdiv_core_binary.
  rewrite (Zdigits2_pos my 53) by exact Hmy.
  change (Zdigits2 8589934592000000) with 53.
  rewrite fexp_normal by lia.
  rewrite Z.min_l by lia.
  replace (ey - -33 - (53 + ey - (53 + -33) - 53)) with 53 by lia.
  cbv iota. rewrite Z.shiftl_mul_pow2 by lia.
  rewrite xorb_false_r.
  change (2 ^ 52) with 4503599627370496 in Hmy.
  change (2 ^ 53) with 9007199254740992 in *.
  pose proof (Z_div_mod (Z.pos my * 9007199254740992) 8589934592000000
                eq_refl) as Hqr.
  destruct (Z.div_eucl (Z.pos my * 9007199254740992) 8589934592000000)
    as [q r].
  destruct Hqr as [Hqr Hr].
  destruct q as [|q|q]; [lia| |lia].
  assert (exists k2 : nat,
            (k2 = 0%nat /\ Z.pos my < 8589934592000000 \/
             k2 = 1%nat /\ 8589934592000000 <= Z.pos my) /\
            2 ^ (52 + Z.of_nat k2) <= Z.pos q < 2 ^ (53 + Z.of_nat k2) /\
            2 ^ Z.of_nat k2 <= 2 ^ (52 + Z.of_nat k2))
    as (k2 & Hk2 & Hq & Hpow).
  { destruct (Z_lt_le_dec (Z.pos my) 8589934592000000) as [H|H].
    - exists 0%nat. split; [left; split; [reflexivity|exact H]|].
      pow2. lia.
    - exists 1%nat. split; [right; split; [reflexivity|exact H]|].
      pow2. lia. }
  destruct (binary_round_aux_spec s q (53 + ey - (53 + -33) - 53)
              (new_location 8589934592000000 r) k2 8589934592000000 r
              ltac:(lia) ltac:(lia) (or_introl (proj1 Hq)) ltac:(lia) Hr
              (new_location_1e6 r))
    as (mz & j2 & Hdiv & Hj2 & Hmz & Hmz' & Herr2).
  assert ((53 + ey - (53 + -33) - 53 + Z.of_nat k2 + j2 <=? 971) = true)
    as Hle
    by (apply Z.leb_le;
        destruct Hk2 as [[-> _]|[-> _]], Hj2 as [->|[-> _]]; lia).
  rewrite Hle in Hdiv. rewrite Hdiv.
  exists mz, (Z.of_nat k2), j2.
  split; [f_equal; lia|].
  split; [destruct Hk2 as [[-> H]|[-> H]]; [left|right]; split;
          try reflexivity; exact H|].
  split; [lia|]. split; [split; [apply Hmz', Hq|exact Hmz]|].
  replace (Z.pos q * 8589934592000000 + r)
    with (Z.pos my * 9007199254740992) in Herr2 by lia.
  exact Herr2.
Qed.

Lemma div_1e6_low (s : bool) (my : positive) (ey : Z) :
  Z.pos my < 2 ^ 53 -> -1074 <= ey <= -1054 ->
  8589934592000000 <= Z.pos my * 2 ^ (ey + 1107)
  < 2 ^ 53 * 8589934592000000 ->
  exists (mz : positive) (j : Z),
    div (S754_finite s my ey) d_1e6 = S754_finite s mz (-1074 + j) /\
    (j = 0 \/ j = 1) /\
    Z.pos mz < 2 ^ 53 /\
    2 * Z.abs (Z.pos mz * 2 ^ j * 8589934592000000
               - Z.pos my * 2 ^ (ey + 1107))
    <= 8589934592000000.
Proof.
  intros Hmy He Hq0.
  unfold d_1e6, div, SFdiv, SFdiv_core_binary. cbn [Zdigits2].
  change (digits2_pos 8589934592000000) with 53%positive.
  pose proof (digits2_pos_bounds my) as Hd.
  assert (Z.pos (digits2_pos my) <= 53) as Hd53.
  { assert (Z.pos (digits2_pos my) - 1 < 53)
      by (apply pow2_lt_exp; lia). lia. }
  replace (fexp prec emax (Z.pos (digits2_pos my) + ey - (53 + -33)))
    with (-1074) by (unfold fexp, emin, prec, emax; lia).
  clear Hd Hd53.
  rewrite Z.min_l by lia.
  replace (ey - -33 - -1074) with (ey + 1107) by lia.
  destruct (ey + 1107) as [|p|p] eqn:Es; [lia| |lia].
  rewrite Z.shiftl_mul_pow2 by lia.
  rewrite xorb_false_r.
  set (A := Z.pos my * 2 ^ Z.pos p) in *.
  change (2 ^ 53) with 9007199254740992 in *.
  pose proof (Z_div_mod A 8589934592000000 eq_refl) as Hqr.
  destruct (Z.div_eucl A 8589934592000000) as [q r].
  destruct Hqr as [Hqr Hr].
  destruct q as [|q|q]; [lia| |lia].
  destruct (binary_round_aux_spec s q (-1074)
              (new_location 8589934592000000 r) 0 8589934592000000 r
              ltac:(pow2; lia) ltac:(lia) (or_intror eq_refl) ltac:(lia) Hr
              (new_location_1e6 r))
    as (mz & j2 & Hdiv & Hj2 & Hmz & _ & Herr2).
  assert ((-1074 + Z.of_nat 0 + j2 <=? 971) = true) as Hle
    by (apply Z.leb_le; destruct Hj2 as [->|[-> _]]; lia).
  rewrite Hle in Hdiv. rewrite Hdiv.
  exists mz, j2.
  split; [f_equal; lia|].
  split; [lia|]. split; [exact Hmz|].
  replace (Z.pos q * 8589934592000000 + r) with A in Herr2 by lia.
  change (2 ^ Z.of_nat 0) with 1 in Herr2. rewrite Z.mul_1_l in Herr2.
  exact Herr2.
Qed.

Lemma mhz_roundtrip_normal (s : bool) (m : positive) (e : Z) :
  2 ^ 52 <= Z.pos m < 2 ^ 53 -> -1073 <= e ->
  (exists (mz : positive) (ez : Z),
     mhz_roundtrip (S754_finite s m e) = S754_finite s mz ez /\
     0 <= ez - e + 1 /\
     Z.abs (Z.pos mz * 2 ^ (ez - e + 1) - 2 * Z.pos m) <= 2) \/
  mul (S754_finite s m e) d_1e6 = S754_infinity s.
Proof.
  intros Hm He. unfold mhz_roundtrip.
  destruct (mul_1e6_normal s m e Hm He)
    as (my & k1 & j1 & Hmul & Hk1 & Hj1 & Hmy & Herr1).
  destruct (Z.leb_spec (e - 33 + k1 + j1) 971) as [Hle|Hgt];
    [left|right; exact Hmul].
  rewrite Hmul.
  assert (-1054 <= e - 33 + k1 + j1 <= 971) as Hey
    by (destruct Hk1 as [[-> _]|[-> _]], Hj1 as [->| ->]; lia).
  destruct (div_1e6_normal s my (e - 33 + k1 + j1) Hmy Hey)
    as (mz & k2 & j2 & -> & Hk2 & Hj2 & Hmz & Herr2).
  exists mz, (e - 33 + k1 + j1 - 20 + k2 + j2).
  split; [reflexivity|].
  replace (e - 33 + k1 + j1 - 20 + k2 + j2 - e + 1)
    with (k1 + j1 + k2 + j2 - 52) by lia.
  clear Hey He Hle Hmul.
  destruct Hk1 as [[-> Hp]|[-> Hp]], Hj1 as [->| ->],
           Hk2 as [[-> Hq]|[-> Hq]], Hj2 as [->| ->];
    pow2; lia.
Qed.

Lemma mhz_roundtrip_low (s : bool) (m : positive) :
  Z.pos m < 2 ^ 53 ->
  exists (mz : positive) (ez : Z),
    mhz_roundtrip (S754_finite s m (-1074)) = S754_finite s mz ez /\
    0 <= ez - -1074 + 1 /\
    Z.abs (Z.pos mz * 2 ^ (ez - -1074 + 1) - 2 * Z.pos m) <= 2.
Proof.
  intros Hm. unfold mhz_roundtrip.
  destruct (mul_1e6_low s m Hm)
    as (my & k1 & j1 & -> & Hk1 & Hj1 & Hmy & Hlow & Herr1).
  assert (2 ^ k1 <= 2 ^ 53) as HX by (apply Z.pow_le_mono_r; lia).
  assert (0 < 2 ^ k1) as HX0 by (apply Z.pow_pos_nonneg; lia).
  destruct (Z_le_gt_dec (-1107 + k1 + j1) (-1054)) as [Hey|Hey].
  - assert (2 ^ (-1107 + k1 + j1 + 1107) = 2 ^ j1 * 2 ^ k1) as Hpow.
    { replace (-1107 + k1 + j1 + 1107) with (j1 + k1) by lia.
      apply Z.pow_add_r; lia. }
    destruct (div_1e6_low s my (-1107 + k1 + j1) Hmy ltac:(lia))
      as (mz & j2 & -> & Hj2 & Hmz & Herr2).
    { rewrite Hpow. set (X := 2 ^ k1) in *.
      destruct Hj1 as [->|[-> _]]; pow2; lia. }
    rewrite Hpow in Herr2.
    exists mz, (-1074 + j2).
    split; [reflexivity|].
    replace (-1074 + j2 - -1074 + 1) with (j2 + 1) by lia.
    set (X := 2 ^ k1) in *.
    destruct Hj1 as [->|[-> _]], Hj2 as [->| ->]; pow2; lia.
  - assert (k1 = 53) as -> by lia.
    destruct Hj1 as [->|[-> Hmy52]]; [lia|].
    exfalso. pow2. lia.
Qed.

(** * Claims *)

(** ** The station count *)

(** Claim C1.  Whatever the world, a call of [rtl_get_fm_stations] on a
    well-formed context never leaves the arrays of the scanner: it runs
    out of clock, or overruns the array of the caller when that array has
    fewer than [MAX_FM_STATIONS] entries, or returns; and when it
    returns, the count is at most [MAX_FM_STATIONS], it is the length
    recorded in the context, and exactly that many entries - the stations
    of the context - were copied to the front of the array of the caller,
    the rest of which is unchanged. *)
Theorem get_stations_count_bounded (t : rtl_ctx) (buf : list double)
    (w : world) (Hwf : ctx_wf t) :
  match rtl_get_fm_stations (Some t) buf w with
  | Ok (count, buf', tuner') w' =>
      exists t',
        tuner' = Some t' /\ ctx_wf t' /\
        station_list_len t' = count /\
        0 <= count <= MAX_FM_STATIONS /\
        length (stations t') = Z.to_nat count /\
        buf' = stations t' ++ drop (Z.to_nat count) buf /\
        length buf' = length buf
  | Fault OutOfBounds => (length buf < Z.to_nat MAX_FM_STATIONS)%nat
  | Fault ClockExhausted => True
  | Fault _ => False
  end.
Proof.
  destruct (scan_fm_stations_outcome t w) as [(ns & rest & Hsw & Hlen)|Hf].
  - pose proof (discovered_length (power w) (reads w) band ns) as Hd.
    rewrite band_length in Hd.
    set (d := discovered (power w) (reads w) band ns) in *.
    destruct (le_lt_dec (length d) (length buf)) as [Hle|Hgt].
    + destruct (rtl_get_fm_stations_spec t buf w ns rest Hsw Hlen Hwf Hle)
        as (so & ->).
      eexists. split; [reflexivity|].
      rewrite stations_after_scan. cbn [station_list station_list_len].
      destruct Hwf as [Hwf _]. unfold ctx_wf, MAX_FM_STATIONS in *.
      cbn [station_list station_list_len].
      rewrite !length_app, !length_drop, Hwf, Nat2Z.id.
      subst d. repeat split; try lia.
    + destruct (scan_fm_stations_spec t w ns rest Hsw Hlen Hwf) as (so & Hrun).
      unfold rtl_get_fm_stations, bind at 1. rewrite Hrun.
      unfold bind, deref, ret, memcpy. cbn [station_list station_list_len].
      fold d.
      destruct (Z.leb_spec (Z.of_nat (length d)) (Z.of_nat (length buf)));
        [lia|].
      cbn [andb raise]. unfold MAX_FM_STATIONS. lia.
  - unfold rtl_get_fm_stations, bind at 1. now rewrite Hf.
Qed.

Lemma get_stations_count_bounded_witness :
  ctx_wf demo_ctx /\
  match rtl_get_fm_stations (Some demo_ctx) (replicate 100 zero)
          (demo_world (fun _ _ => d_1) (replicate 100 3%nat)) with
  | Ok (count, buf', tuner') w' =>
      exists t',
        tuner' = Some t' /\ ctx_wf t' /\
        station_list_len t' = count /\
        0 <= count <= MAX_FM_STATIONS /\
        length (stations t') = Z.to_nat count /\
        buf' = stations t' ++ drop (Z.to_nat count) (replicate 100 zero) /\
        length buf' = length (replicate 100 zero)
  | Fault OutOfBounds =>
      (length (replicate 100 zero) < Z.to_nat MAX_FM_STATIONS)%nat
  | Fault ClockExhausted => True
  | Fault _ => False
  end.
Proof.
  split; [exact demo_ctx_wf|].
  exact (get_stations_count_bounded demo_ctx (replicate 100 zero)
           (demo_world (fun _ _ => d_1) (replicate 100 3%nat)) demo_ctx_wf).
Defined.

(** ** The detection rule *)

(** Three readings one unit in the last place above the threshold: their
    arithmetic mean is above the threshold, the mean the loop computes is
    the threshold itself, and 87.9 is not recorded.  Seven readings one
    unit in the last place below the threshold: their arithmetic mean is
    below the threshold, the mean the loop computes is above it, and 87.9
    is recorded. *)
Lemma scan_detection_counterexample :
  (exact_mean_exceeds
     (samples (fun _ _ => succ POWER_THRESHOLD) (mul d_87_9 d_1e6) 0 3)
     POWER_THRESHOLD = true /\
   exists t' w',
     scan_fm_stations (Some demo_ctx)
       (demo_world (fun _ _ => succ POWER_THRESHOLD) (replicate 100 3%nat))
     = Ok (Some t') w' /\
     stations t' = [] /\ d_87_9 ∉ stations t')
  /\
  (exact_mean_exceeds
     (samples (fun _ _ => pred POWER_THRESHOLD) (mul d_87_9 d_1e6) 0 7)
     POWER_THRESHOLD = false /\
   exists t' w',
     scan_fm_stations (Some demo_ctx)
       (demo_world (fun _ _ => pred POWER_THRESHOLD) (replicate 100 7%nat))
     = Ok (Some t') w' /\
     stations t' = band /\ d_87_9 ∈ stations t').
Proof.
  split.
  - split; [vm_compute; reflexivity|].
    eexists _, _. split; [vm_compute; reflexivity|].
    split; [vm_compute; reflexivity|].
    match goal with |- _ ∉ ?l => replace l with (@nil double)
                                   by (vm_compute; reflexivity) end.
    apply not_elem_of_nil.
  - split; [vm_compute; reflexivity|].
    eexists _, _. split; [vm_compute; reflexivity|].
    split; [vm_compute; reflexivity|].
    match goal with |- _ ∈ ?l => replace l with band
                                   by (vm_compute; reflexivity) end.
    apply (list_elem_of_lookup_2 band 0%nat). reflexivity.
Qed.

(** Claim C5, amended.  On a clock that carries the windows of a sweep
    the scan returns, and the candidate of each window is among the
    stations of the context exactly when the counter of the window - the
    number of its samples modulo [2^32] - is positive and the mean the
    loop computes - the sum of the samples, added in double precision in
    the order read, divided by that counter - is strictly above the
    threshold; a window without samples records nothing. *)
Theorem scan_detection_rule (t : rtl_ctx) (w : world) (ns : list nat)
    (rest : list Z)
    (Hclk : clock_sweep ns (clock w) rest)
    (Hlen : length ns = 100%nat)
    (Hwf : ctx_wf t) :
  exists t' w',
    scan_fm_stations (Some t) w = Ok (Some t') w' /\
    forall i f n,
      band !! i = Some f -> ns !! i = Some n ->
      let window :=
        samples (power w) (mul f d_1e6) (reads w + sum_list (take i ns)) n in
      let num_samples := wrap32 (Z.of_nat n) in
      (f ∈ stations t' <->
       0 < num_samples /\
       ltb POWER_THRESHOLD (div (sum_of window) (of_int num_samples)) = true)
      /\ (n = 0%nat -> f ∉ stations t').
Proof.
  destruct (scan_fm_stations_spec t w ns rest Hclk Hlen Hwf) as (so & Hrun).
  eexists _, _. split; [exact Hrun|].
  intros i f n Hf Hn window num_samples. rewrite stations_after_scan.
  assert (f ∈ discovered (power w) (reads w) band ns <->
          0 < num_samples /\
          ltb POWER_THRESHOLD (div (sum_of window) (of_int num_samples))
          = true) as Hiff.
  { rewrite (discovered_elem (power w) band band_NoDup (reads w) ns i f n Hf Hn).
    fold window. unfold detects. subst window. rewrite length_samples.
    fold num_samples. rewrite andb_true_iff, Z.ltb_lt. reflexivity. }
  split; [exact Hiff|].
  intros -> Hin. apply Hiff in Hin. destruct Hin as [Hpos _].
  subst num_samples. revert Hpos. vm_compute. discriminate.
Qed.

Lemma scan_detection_rule_witness :
  exists t' w',
    scan_fm_stations (Some demo_ctx)
      (demo_world nan_at_5 (replicate 100 3%nat)) = Ok (Some t') w' /\
    forall i f n,
      band !! i = Some f -> replicate 100 3%nat !! i = Some n ->
      let window :=
        samples nan_at_5 (mul f d_1e6)
                (0 + sum_list (take i (replicate 100 3%nat))) n in
      let num_samples := wrap32 (Z.of_nat n) in
      (f ∈ stations t' <->
       0 < num_samples /\
       ltb POWER_THRESHOLD (div (sum_of window) (of_int num_samples)) = true)
      /\ (n = 0%nat -> f ∉ stations t').
Proof.
  apply (scan_detection_rule demo_ctx
           (demo_world nan_at_5 (replicate 100 3%nat))
           (replicate 100 3%nat) []).
  - apply steady_clock_sweep.
  - reflexivity.
  - exact demo_ctx_wf.
Defined.

(** ** Constant power *)

Lemma detects_constant pw c f r n :
  (forall hz i, pw hz i = c) ->
  Z.of_nat n < 2 ^ 32 ->
  detects (samples pw (mul f d_1e6) r n) = spec_detects (replicate n c).
Proof.
  intros Hc Hn. rewrite (samples_const pw c) by exact Hc.
  apply detects_spec. now rewrite length_replicate.
Qed.

(** A probe that reads one unit in the last place above the threshold,
    with three samples in each window: the mean the loop computes is the
    threshold itself, and no station is recorded.  And a probe that reads
    1.0, when the first window closes before its first poll: the first
    candidate is not recorded. *)
Lemma constant_power_above_counterexample :
  (ltb POWER_THRESHOLD (succ POWER_THRESHOLD) = true /\
   constant_power
     (demo_world (fun _ _ => succ POWER_THRESHOLD) (replicate 100 3%nat))
     (succ POWER_THRESHOLD) /\
   exists t' w',
     scan_fm_stations (Some demo_ctx)
       (demo_world (fun _ _ => succ POWER_THRESHOLD) (replicate 100 3%nat))
     = Ok (Some t') w' /\
     stations t' = [] /\ stations t' <> band)
  /\
  (ltb POWER_THRESHOLD d_1 = true /\
   constant_power
     (demo_world (fun _ _ => d_1) (0%nat :: replicate 99 3%nat)) d_1 /\
   exists t' w',
     scan_fm_stations (Some demo_ctx)
       (demo_world (fun _ _ => d_1) (0%nat :: replicate 99 3%nat))
     = Ok (Some t') w' /\
     stations t' = tail band /\ stations t' <> band).
Proof.
  split.
  - split; [vm_compute; reflexivity|]. split; [intros hz i; reflexivity|].
    eexists _, _. split; [vm_compute; reflexivity|].
    split; [vm_compute; reflexivity|]. vm_compute. discriminate.
  - split; [vm_compute; reflexivity|]. split; [intros hz i; reflexivity|].
    eexists _, _. split; [vm_compute; reflexivity|].
    split; [vm_compute; reflexivity|]. vm_compute. discriminate.
Qed.

(** Claim C3, amended.  If the probe reads a constant and every window
    of the sweep takes at least one sample (and fewer than [2^32]) whose
    arithmetic mean, as computed in double precision, is strictly above
    the threshold, then the scan returns and the stations of the context
    are the whole band - the hundred candidates of the sweep - in
    ascending order. *)
Theorem constant_power_detected_full_band (t : rtl_ctx) (w : world)
    (ns : list nat) (rest : list Z) (c : double)
    (Hconst : constant_power w c)
    (Hclk : clock_sweep ns (clock w) rest)
    (Hlen : length ns = 100%nat)
    (Hwf : ctx_wf t)
    (Hmean : Forall (fun n => (0 < n)%nat /\ Z.of_nat n < 2 ^ 32 /\
                       ltb POWER_THRESHOLD (arithmetic_mean (replicate n c))
                       = true) ns) :
  exists t' w',
    scan_fm_stations (Some t) w = Ok (Some t') w' /\
    stations t' = band /\
    station_list_len t' = 100 /\
    ascending (stations t') = true.
Proof.
  destruct (scan_fm_stations_spec t w ns rest Hclk Hlen Hwf) as (so & Hrun).
  eexists _, _. split; [exact Hrun|].
  rewrite stations_after_scan. cbn [station_list_len].
  rewrite (discovered_all (power w) band (reads w) ns).
  - split; [reflexivity|]. split; [now rewrite band_length|].
    vm_compute. reflexivity.
  - now rewrite band_length.
  - intros f r n _ Hn. rewrite Forall_forall in Hmean.
    destruct (Hmean n Hn) as (Hpos & Hsm & Hm).
    rewrite (detects_constant (power w) c) by assumption.
    destruct n; [lia|]. exact Hm.
Qed.

Lemma constant_power_detected_full_band_witness :
  exists t' w',
    scan_fm_stations (Some demo_ctx)
      (demo_world (fun _ _ => d_1) (replicate 100 3%nat)) = Ok (Some t') w' /\
    stations t' = band /\
    station_list_len t' = 100 /\
    ascending (stations t') = true.
Proof.
  apply (constant_power_detected_full_band demo_ctx
           (demo_world (fun _ _ => d_1) (replicate 100 3%nat))
           (replicate 100 3%nat) [] d_1).
  - intros hz i. reflexivity.
  - apply steady_clock_sweep.
  - reflexivity.
  - exact demo_ctx_wf.
  - apply Forall_replicate. split; [lia|]. split; reflexivity.
Defined.

(** A probe that reads one unit in the last place below the threshold,
    with seven samples in each window: the mean the loop computes is
    above the threshold, and all hundred candidates are reported. *)
Lemma constant_power_below_counterexample :
  ltb (pred POWER_THRESHOLD) POWER_THRESHOLD = true /\
  constant_power
    (demo_world (fun _ _ => pred POWER_THRESHOLD) (replicate 100 7%nat))
    (pred POWER_THRESHOLD) /\
  exists buf' t' w',
    rtl_get_fm_stations (Some demo_ctx) (replicate 100 zero)
      (demo_world (fun _ _ => pred POWER_THRESHOLD) (replicate 100 7%nat))
    = Ok (100, buf', Some t') w' /\
    stations t' = band /\ buf' = band.
Proof.
  split; [vm_compute; reflexivity|]. split; [intros hz i; reflexivity|].
  eexists _, _, _. split; [vm_compute; reflexivity|].
  split; vm_compute; reflexivity.
Qed.

(** Claim C6, amended.  If the probe reads a constant and in no window
    of the sweep (each of fewer than [2^32] samples) the arithmetic mean
    of the samples, as computed in double precision, is above the
    threshold, then [rtl_get_fm_stations] returns the count zero, leaves
    the array of the caller as it was, and the context holds no
    station. *)
Theorem constant_power_undetected_empty (t : rtl_ctx) (buf : list double)
    (w : world) (ns : list nat) (rest : list Z) (c : double)
    (Hconst : constant_power w c)
    (Hclk : clock_sweep ns (clock w) rest)
    (Hlen : length ns = 100%nat)
    (Hwf : ctx_wf t)
    (Hmean : Forall (fun n => Z.of_nat n < 2 ^ 32 /\
                       spec_detects (replicate n c) = false) ns) :
  exists t' w',
    rtl_get_fm_stations (Some t) buf w = Ok (0, buf, Some t') w' /\
    stations t' = [] /\
    station_list_len t' = 0.
Proof.
  assert (discovered (power w) (reads w) band ns = []) as Hd.
  { apply discovered_none. intros f r n _ Hn.
    rewrite Forall_forall in Hmean. destruct (Hmean n Hn) as (Hsm & Hm).
    now rewrite (detects_constant (power w) c). }
  destruct (rtl_get_fm_stations_spec t buf w ns rest Hclk Hlen Hwf)
    as (so & Hrun).
  { rewrite Hd. cbn [length]. lia. }
  rewrite Hd in Hrun. cbn [length app drop] in Hrun.
  eexists _, _. split; [exact Hrun|].
  split; reflexivity.
Qed.

Lemma constant_power_undetected_empty_witness :
  exists t' w',
    rtl_get_fm_stations (Some demo_ctx) (replicate 100 d_1)
      (demo_world (fun _ _ => zero) (replicate 100 3%nat))
    = Ok (0, replicate 100 d_1, Some t') w' /\
    stations t' = [] /\
    station_list_len t' = 0.
Proof.
  apply (constant_power_undetected_empty demo_ctx (replicate 100 d_1)
           (demo_world (fun _ _ => zero) (replicate 100 3%nat))
           (replicate 100 3%nat) [] zero).
  - intros hz i. reflexivity.
  - apply steady_clock_sweep.
  - reflexivity.
  - exact demo_ctx_wf.
  - apply Forall_replicate. split; reflexivity.
Defined.

(** ** The frequency a scan leaves behind *)

Lemma get_last_candidate : div (mul d_last d_1e6) d_1e6 = d_last.
Proof. vm_compute. reflexivity. Qed.

(** Claim C9.  Whatever frequency [f0] was set before, when
    [rtl_get_fm_stations] returns, the source is tuned to the last
    candidate of the sweep (107.70000000000029 MHz) and [rtl_get_fm]
    reports that frequency: the scan does not restore the frequency set
    before it. *)
Theorem get_stations_leaves_last_candidate (t : rtl_ctx) (f0 : double)
    (buf : list double) (w : world) (ns : list nat) (rest : list Z)
    (Hclk : clock_sweep ns (clock w) rest)
    (Hlen : length ns = 100%nat)
    (Hwf : ctx_wf t)
    (Hbuf : (100 <= length buf)%nat) :
  exists count buf' t' w',
    (t1 <- rtl_set_fm (Some t) f0 ;;
     rtl_get_fm_stations (Some t1) buf) w = Ok (count, buf', Some t') w' /\
    last band = Some d_last /\
    get_center_freq t' = mul d_last d_1e6 /\
    rtl_get_fm (Some t') w' = Ok d_last w'.
Proof.
  unfold bind at 1, rtl_set_fm, bind, deref, ret.
  set (t1 := set_center_freq (mul f0 d_1e6) t).
  assert (ctx_wf t1) as Hwf1 by exact Hwf.
  pose proof (discovered_length (power w) (reads w) band ns) as Hd.
  rewrite band_length in Hd.
  destruct (rtl_get_fm_stations_spec t1 buf w ns rest Hclk Hlen Hwf1)
    as (so & Hrun); [lia|].
  eexists _, _, _, _. split; [exact Hrun|].
  split; [exact band_last|]. split; [reflexivity|].
  unfold rtl_get_fm, bind, deref, ret, get_center_freq. cbn [rtl_source].
  now rewrite get_last_candidate.
Qed.

Lemma get_stations_leaves_last_candidate_witness :
  exists count buf' t' w',
    (t1 <- rtl_set_fm (Some demo_ctx) (decimal 1019 10) ;;
     rtl_get_fm_stations (Some t1) (replicate 100 zero))
      (demo_world (fun _ _ => d_1) (replicate 100 3%nat))
    = Ok (count, buf', Some t') w' /\
    last band = Some d_last /\
    get_center_freq t' = mul d_last d_1e6 /\
    rtl_get_fm (Some t') w' = Ok d_last w'.
Proof.
  apply (get_stations_leaves_last_candidate demo_ctx (decimal 1019 10)
           (replicate 100 zero)
           (demo_world (fun _ _ => d_1) (replicate 100 3%nat))
           (replicate 100 3%nat) []).
  - apply steady_clock_sweep.
  - reflexivity.
  - exact demo_ctx_wf.
  - rewrite length_replicate. lia.
Defined.

(** ** Setting and reading the frequency *)

Lemma set_then_get (t : rtl_ctx) (f : double) (w : world) :
  (t1 <- rtl_set_fm (Some t) f ;; rtl_get_fm (Some t1)) w
  = Ok (mhz_roundtrip f) w.
Proof. reflexivity. Qed.

Lemma same_eq (x y : double) : same x y = true -> x = y.
Proof.
  destruct x as [a|a| |a m e], y as [b|b| |b n f]; cbn [same];
    try discriminate; try reflexivity.
  - intros H. apply Bool.eqb_prop in H. now subst.
  - intros H. apply Bool.eqb_prop in H. now subst.
  - intros H. apply andb_prop in H as [H He]. apply andb_prop in H as [Hs Hm].
    apply Bool.eqb_prop in Hs. apply Pos.eqb_eq in Hm. apply Z.eqb_eq in He.
    now subst.
Qed.

Lemma below_spec (P : Z -> bool) (k : nat) :
  below P k = true -> forall n, 0 <= n < Z.of_nat k -> P n = true.
Proof.
  induction k as [|k IH]; intros H n Hn; [lia|].
  cbn [below] in H. apply andb_prop in H as [Hk H].
  destruct (Z.eq_dec n (Z.of_nat k)) as [->|Hne]; [exact Hk|].
  apply IH; [exact H|lia].
Qed.

(** The tenths of a megahertz from 0.0 to 200.0 survive both
    conversions. *)
Lemma tenths_exact : below survives (Z.to_nat 2001) = true.
Proof. vm_compute. reflexivity. Qed.

Lemma roundtrip_exact_on_tenths (n : Z) :
  0 <= n <= 2000 -> mhz_roundtrip (decimal n 10) = decimal n 10.
Proof.
  intros Hn. apply same_eq. change (survives n = true).
  refine (below_spec survives (Z.to_nat 2001) tenths_exact n _).
  lia.
Qed.

(** The twelfth candidate of the sweep, 90.10000000000004 MHz, comes
    back one unit in the last place lower: the bound of the round trip
    is reached. *)
Lemma roundtrip_last_place :
  band !! 11%nat = Some (S754_finite false 6340223850407529 (-46)) /\
  mhz_roundtrip (S754_finite false 6340223850407529 (-46))
  = S754_finite false 6340223850407528 (-46).
Proof. split; vm_compute; reflexivity. Qed.

Lemma within_ulp_intro (s : bool) (mz m : positive) (ez e : Z) :
  0 <= ez - e + 1 ->
  Z.abs (Z.pos mz * 2 ^ (ez - e + 1) - 2 * Z.pos m) <= 2 ->
  within_ulp (S754_finite s mz ez) (S754_finite s m e) = true.
Proof.
  intros Hez Herr. cbn [within_ulp]. rewrite eqb_reflx. cbn [andb].
  apply Z.leb_le.
  destruct (Z_lt_le_dec ez e) as [Hlt|Hge].
  - assert (ez = e - 1) as -> by lia.
    rewrite Z.min_l by lia.
    replace (e - 1 - (e - 1)) with 0 by lia.
    replace (e - (e - 1)) with 1 by lia.
    replace (e - 1 - e + 1) with 0 in Herr by lia.
    change (2 ^ 0) with 1 in *. change (2 ^ 1) with 2. lia.
  - rewrite Z.min_r by lia.
    replace (e - e) with 0 by lia. change (2 ^ 0) with 1.
    replace (ez - e + 1) with (Z.succ (ez - e)) in Herr by lia.
    rewrite Z.pow_succ_r in Herr by lia.
    set (Q := 2 ^ (ez - e)) in *. lia.
Qed.

(** Both conversions, on every double whose hertz value is finite. *)
Lemma mhz_roundtrip_within_ulp (f : double) :
  valid_binary prec emax f = true ->
  is_finite (mul f d_1e6) = true ->
  within_ulp (mhz_roundtrip f) f = true.
Proof.
  intros Hv Hfin. destruct f as [s|s| |s m e].
  - destruct s; reflexivity.
  - destruct s; discriminate.
  - discriminate.
  - destruct (valid_finite s m e Hv) as (Hm & He & [[Hm' He']| ->]).
    + destruct (mhz_roundtrip_normal s m e (conj Hm' Hm) He')
        as [(mz & ez & -> & Hez & Herr)|Hinf].
      * apply within_ulp_intro; assumption.
      * rewrite Hinf in Hfin. discriminate.
    + destruct (mhz_roundtrip_low s m Hm) as (mz & ez & -> & Hez & Herr).
      apply within_ulp_intro; assumption.
Qed.

(** A frequency of [2^1023] MHz: in hertz it overflows, the source block
    is handed an infinity - the same as for [2^1010] MHz -, and an
    infinity is read back. *)
Lemma set_get_identity_counterexample :
  valid_binary prec emax d_2p1023 = true /\
  (t1 <- rtl_set_fm (Some demo_ctx) d_2p1023 ;; rtl_get_fm (Some t1))
    (demo_world (fun _ _ => d_1) [])
  = Ok (S754_infinity false) (demo_world (fun _ _ => d_1) []) /\
  within_ulp (S754_infinity false) d_2p1023 = false /\
  mul d_2p1023 d_1e6 = mul d_2p1010 d_1e6.
Proof.
  split; [reflexivity|]. split; [vm_compute; reflexivity|].
  split; vm_compute; reflexivity.
Qed.

(** Claim C8, amended.  For every valid context, whatever it was tuned
    to, and every frequency whose value in hertz is a finite double,
    setting it and reading it back returns that frequency up to one unit
    in its last place, and changes nothing in the world. *)
Theorem set_get_within_rounding (t : rtl_ctx) (w : world) (f : double)
    (Hdouble : valid_binary prec emax f = true)
    (Hhz : is_finite (mul f d_1e6) = true) :
  exists g,
    (t1 <- rtl_set_fm (Some t) f ;; rtl_get_fm (Some t1)) w = Ok g w /\
    within_ulp g f = true.
Proof.
  exists (mhz_roundtrip f). split; [apply set_then_get|].
  apply mhz_roundtrip_within_ulp; assumption.
Qed.

Lemma set_get_within_rounding_witness :
  exists g,
    (t1 <- rtl_set_fm (Some demo_ctx)
             (S754_finite false 6340223850407529 (-46)) ;;
     rtl_get_fm (Some t1)) (demo_world (fun _ _ => d_1) []) 
    = Ok g (demo_world (fun _ _ => d_1) []) /\
    within_ulp g (S754_finite false 6340223850407529 (-46)) = true.
Proof.
  apply (set_get_within_rounding demo_ctx (demo_world (fun _ _ => d_1) [])
           (S754_finite false 6340223850407529 (-46))).
  - reflexivity.
  - reflexivity.
Defined.

(** ** Windows without samples *)

(** A clock whose first window closes before its first poll: the reading
    for [start] is 0 and the next reading, at the first test of the loop
    condition, is 200 ms later.  The probe reads 1.0, far above the
    threshold; the loop takes no sample, [num_samples] is zero, and the
    first candidate goes through the branch that skips it. *)
Lemma first_poll_counterexample :
  measure [200000000] 0 (mul d_87_9 d_1e6) zero 0
          (demo_world (fun _ _ => d_1) [])
  = Ok (zero, 0) (demo_world (fun _ _ => d_1) []) /\
  scan_step d_87_9
    (Some demo_ctx, Locals 0 (replicate 100 zero))
    (demo_world (fun _ _ => d_1) [0%nat])
  = Ok (Some (set_center_freq (mul d_87_9 d_1e6) demo_ctx),
        Locals 0 (replicate 100 zero))
       (World [] (fun _ _ => d_1) 0 1000 [] zero).
Proof. split; vm_compute; reflexivity. Qed.

(** Claim C10, amended.  When the clock reading at the first test of
    the loop condition is less than [MEASURE_MS] after the reading for
    [start], the polling loop takes at least one sample before it
    returns, and its counter is positive unless it wrapped around; the
    loop otherwise runs out of clock.  When that first reading is
    [MEASURE_MS] or more after [start], the step of the sweep takes no
    sample, computes no mean and leaves the stations found so far as
    they were: the division is always by a positive count. *)
Theorem first_poll_in_window (start first : Z) (clk : list Z)
    (Hfirst : elapsed_ms start first < MEASURE_MS) :
  (forall hz w,
     match measure (first :: clk) start hz zero 0 w with
     | Ok (sample_sum, num_samples) w' =>
         (reads w < reads w')%nat /\
         num_samples = wrap32 (Z.of_nat (reads w' - reads w)) /\
         (Z.of_nat (reads w' - reads w) < 2 ^ 32 -> 0 < num_samples)
     | Fault f => f = ClockExhausted
     end) /\
  (forall freq t loc w stop rest,
     clock w = start :: stop :: rest ->
     MEASURE_MS <= elapsed_ms start stop ->
     scan_step freq (Some t, loc) w
     = Ok (Some (set_center_freq (mul freq d_1e6) t), loc)
          (World rest (power w) (reads w) (slept w + SWITCH_DELAY_MS)
                 (stdout w) (junk w))).
Proof.
  split.
  - intros hz w.
    destruct (measure_inv (first :: clk) start)
      as [(inside & stop & rest & Heq & Hin & Hout)|Hf].
    + rewrite Heq, measure_window by assumption.
      rewrite count_after_0. cbn [reads].
      destruct inside as [|x inside].
      { cbn [app] in Heq. injection Heq as -> _. lia. }
      cbn [length].
      replace (reads w + S (length inside) - reads w)%nat
        with (S (length inside)) by lia.
      split; [lia|]. split; [reflexivity|].
      intros Hsmall. rewrite wrap32_small; lia.
    + now rewrite Hf.
  - intros freq t loc w stop rest Hclk Hout.
    rewrite (scan_step_window freq t loc w start [] stop rest Hclk);
      [|constructor|assumption].
    cbn [length samples seq map]. rewrite Nat.add_0_r.
    reflexivity.
Qed.

Lemma first_poll_in_window_witness :
  (forall hz w,
     match measure (5 :: [7; 200000000]) 0 hz zero 0 w with
     | Ok (sample_sum, num_samples) w' =>
         (reads w < reads w')%nat /\
         num_samples = wrap32 (Z.of_nat (reads w' - reads w)) /\
         (Z.of_nat (reads w' - reads w) < 2 ^ 32 -> 0 < num_samples)
     | Fault f => f = ClockExhausted
     end) /\
  (forall freq t loc w stop rest,
     clock w = 0 :: stop :: rest ->
     MEASURE_MS <= elapsed_ms 0 stop ->
     scan_step freq (Some t, loc) w
     = Ok (Some (set_center_freq (mul freq d_1e6) t), loc)
          (World rest (power w) (reads w) (slept w + SWITCH_DELAY_MS)
                 (stdout w) (junk w))).
Proof.
  apply (first_poll_in_window 0 5 [7; 200000000]).
  reflexivity.
Defined.

(** ** Null contexts *)

(** Claim C2.  With a null context, [rtl_start_fm], [rtl_stop_fm] and
    [rtl_destroy_tuner] print an error and do nothing else, while
    [rtl_set_fm], [rtl_get_fm] and [rtl_get_fm_stations] have no such
    test and access a member of the null context. *)
Theorem null_context_calls (freq : double) (buf : list double) (w : world) :
  rtl_set_fm None freq w = Fault NullDereference /\
  rtl_get_fm None w = Fault NullDereference /\
  rtl_get_fm_stations None buf w = Fault NullDereference /\
  rtl_start_fm None w
  = Ok None (World (clock w) (power w) (reads w) (slept w)
               (Printf "Error: rtl_start_fm - no tuner specified\n" []
                :: stdout w) (junk w)) /\
  rtl_stop_fm None w
  = Ok None (World (clock w) (power w) (reads w) (slept w)
               (Printf "Error: rtl_stop_fm - no tuner specified\n" []
                :: stdout w) (junk w)) /\
  rtl_destroy_tuner None w
  = Ok tt (World (clock w) (power w) (reads w) (slept w)
             (Printf "Error: rtl_destroy_tuner - null pointer\n" []
              :: stdout w) (junk w)).
Proof.
  repeat split.
Qed.

(** ** The upper end of the band *)

(** Claim C4.  The sweep has a hundred candidates, from 87.9 up to
    107.70000000000029, all of them in the band and strictly below
    107.9: after the hundredth candidate the variable of the loop is
    107.90000000000029, above the bound, so that 107.9 itself is never
    visited.  The candidates drift from the grid: the fourth one is not
    87.9 plus three times 0.2. *)
Theorem sweep_misses_upper_end :
  length band = 100%nat /\
  head band = Some d_87_9 /\
  last band = Some d_last /\
  forallb (fun f => leb d_87_9 f && ltb f d_107_9) band = true /\
  (d_107_9 ∉ band) /\
  leb (add d_last d_0_2) d_107_9 = false /\
  band !! 3%nat <> Some (add d_87_9 (mul (of_int 3) d_0_2)) /\
  (forall t w t' w',
     scan_fm_stations (Some t) w = Ok (Some t') w' ->
     ctx_wf t -> d_107_9 ∉ stations t').
Proof.
  assert (d_107_9 ∉ band) as Hnot.
  { intros Hin. apply list_elem_of_In in Hin.
    assert (existsb (same d_107_9) band = true) as Hex.
    { apply existsb_exists. exists d_107_9. split; [exact Hin|].
      vm_compute. reflexivity. }
    vm_compute in Hex. discriminate. }
  split; [exact band_length|].
  split; [reflexivity|].
  split; [exact band_last|].
  split; [vm_compute; reflexivity|].
  split; [exact Hnot|].
  split; [vm_compute; reflexivity|].
  split; [vm_compute; discriminate|].
  intros t w t' w' Hrun Hwf Hin.
  destruct (scan_fm_stations_outcome t w) as [(ns & rest & Hsw & Hlen)|Hf];
    [|rewrite Hf in Hrun; discriminate].
  destruct (scan_fm_stations_spec t w ns rest Hsw Hlen Hwf) as (so & Hspec).
  rewrite Hspec in Hrun.
  apply (f_equal (fun r => match r with
                           | Ok (Some x) _ => stations x
                           | _ => []
                           end)) in Hrun.
  cbv beta iota in Hrun. rewrite <- Hrun, stations_after_scan in Hin.
  apply Hnot. eapply elem_of_sublist; [exact Hin|apply discovered_sublist].
Qed.

(** * Threads: the invariant of the mutex *)

Import Threads.

Lemma upd_eq ths tid p : upd ths tid p tid = p.
Proof. unfold upd. now rewrite Nat.eqb_refl. Qed.

Lemma upd_ne ths tid p j : j <> tid -> upd ths tid p j = ths j.
Proof.
  intros Hne. unfold upd. destruct (Nat.eqb_spec j tid); [contradiction|].
  reflexivity.
Qed.













(** * Further properties of the scanner *)

Lemma report_nil pw r l : report pw r l [] = [].
Proof. destruct l; reflexivity. Qed.

(** The sweep with its output: as [steps_sweep], with the lines printed. *)
Lemma steps_trace ns clk rest :
  clock_sweep ns clk rest ->
  forall l t loc w,
    length l = length ns ->
    clock w = clk ->
    0 <= found_stations loc ->
    found_stations loc + Z.of_nat (length l)
      <= Z.of_nat (length (stations_out loc)) ->
    Z.of_nat (length (stations_out loc)) < 2 ^ 32 ->
    let d := discovered (power w) (reads w) l ns in
    exists out,
      steps scan_step l (Some t, loc) w =
      Ok (Some (Ctx (top_block t) (tuned_after l (rtl_source t))
                    (station_list t) (station_list_len t)),
          Locals (found_stations loc + Z.of_nat (length d)) out)
         (World rest (power w) (reads w + sum_list ns)%nat
                (slept w + SWITCH_DELAY_MS * Z.of_nat (length l))
                (rev (report (power w) (reads w) l ns) ++ stdout w)
                (junk w))
      /\ length out = length (stations_out loc)
      /\ take (Z.to_nat (found_stations loc) + length d)%nat out =
         take (Z.to_nat (found_stations loc)) (stations_out loc) ++ d.
Proof.
  induction 1 as [clk|start inside stop clk ns rest Hin Hout Hsw IH];
    intros l t loc w Hlen Hclk Hf0 Hf1 Hcap d.
  - destruct l; [|discriminate]. subst d.
    cbn [discovered report rev app steps ret length].
    exists (stations_out loc).
    destruct t, loc, w; cbn in *. subst.
    rewrite Z.add_0_r, !Nat.add_0_r, Z.mul_0_r, Z.add_0_r, app_nil_r.
    repeat split; reflexivity.
  - destruct l as [|f l]; [discriminate|].
    cbn [length] in Hlen, Hf1. injection Hlen as Hlen.
    cbn [steps]. unfold bind at 1.
    rewrite (scan_step_window f t loc w start inside stop clk Hclk Hin Hout).
    subst d. cbn [discovered report].
    set (t1 := set_center_freq (mul f d_1e6) t).
    set (s := samples (power w) (mul f d_1e6) (reads w) (length inside)).
    destruct (detects s).
    + unfold bind at 1 2, printf, ret.
      cbn [clock power reads slept stdout junk].
      rewrite array_store_in by lia.
      rewrite wrap32_small by lia.
      match goal with |- context [steps scan_step l (Some t1, ?loc1) ?w1] =>
        destruct (IH l t1 loc1 w1) as (out & Hrun & Hlo & Htake);
          cbn [found_stations stations_out clock power reads slept stdout junk];
          rewrite ?length_insert; try lia; try reflexivity
      end.
      cbn [found_stations stations_out clock power reads slept stdout junk]
        in Hrun, Hlo, Htake.
      rewrite length_insert in Hlo.
      exists out. rewrite Hrun. split; [|split].
      * cbn [app length sum_list sum_list_with id tuned_after fold_left
               top_block rtl_source
               station_list station_list_len t1 set_center_freq].
        cbn [rev]. rewrite <- app_assoc. cbn [app].
        unfold found_line. subst s. rewrite length_samples.
        eq_fields.
      * exact Hlo.
      * cbn [app length].
        replace (Z.to_nat (found_stations loc) + S _)%nat
          with (Z.to_nat (found_stations loc + 1) + length
                  (discovered (power w) (reads w + length inside) l ns))%nat
          by lia.
        rewrite Htake.
        replace (Z.to_nat (found_stations loc + 1))
          with (S (Z.to_nat (found_stations loc))) by lia.
        erewrite take_S_r
          by (apply list_lookup_insert_eq; lia).
        rewrite take_insert_ge by lia.
        now rewrite <- app_assoc.
    + destruct (IH l t1 loc
                  (World clk (power w) (reads w + length inside)%nat
                         (slept w + SWITCH_DELAY_MS) (stdout w) (junk w)))
        as (out & Hrun & Hlo & Htake);
        cbn [clock power reads slept stdout junk]; try lia; try reflexivity.
      cbn [clock power reads slept stdout junk] in Hrun, Hlo, Htake.
      exists out. rewrite Hrun. split; [|split].
      * cbn [app length sum_list sum_list_with id tuned_after fold_left
               top_block rtl_source
               station_list station_list_len t1 set_center_freq].
        eq_fields.
      * exact Hlo.
      * exact Htake.
Qed.

(** The scanner on a context whose array has its declared size, whatever
    its length field holds: the context and the world it leaves. *)
Lemma scan_fm_stations_full t w ns rest :
  clock_sweep ns (clock w) rest ->
  length ns = 100%nat ->
  length (station_list t) = Z.to_nat MAX_FM_STATIONS ->
  scan_fm_stations (Some t) w =
  Ok (Some (ctx_after_scan t (discovered (power w) (reads w) band ns)))
     (world_after_scan w ns rest).
Proof.
  intros Hclk Hns Hwf.
  set (d := discovered (power w) (reads w) band ns).
  pose proof (discovered_length (power w) (reads w) band ns) as Hd.
  fold d in Hd. rewrite band_length in Hd.
  unfold scan_fm_stations, bind at 1 2, printf.
  rewrite sweep_band.
  set (w1 := World _ _ _ _ _ _).
  set (loc := Locals _ _).
  destruct (steps_trace ns (clock w) rest Hclk band t loc w1)
    as (out & Hrun & Hlo & Htake).
  { now rewrite band_length. }
  { reflexivity. }
  { subst loc. cbn [found_stations]. lia. }
  { subst loc. cbn [found_stations stations_out].
    rewrite length_replicate, band_length. unfold MAX_FM_STATIONS. lia. }
  { subst loc. cbn [stations_out]. rewrite length_replicate.
    unfold MAX_FM_STATIONS. lia. }
  rewrite Hrun. subst loc w1.
  cbn [found_stations stations_out clock power reads slept stdout junk]
    in Hlo, Htake |- *.
  fold d in Htake |- *. rewrite length_replicate in Hlo.
  unfold bind at 1 2 3, deref, ret.
  cbn [station_list top_block rtl_source station_list_len].
  rewrite memcpy_in
    by (rewrite ?Hwf, ?Hlo; unfold MAX_FM_STATIONS; lia).
  unfold printf, ret. cbn [clock power reads slept stdout junk].
  rewrite tuned_after_band, band_length.
  replace (Z.to_nat (0 + Z.of_nat (length d))) with (length d) by lia.
  change (Z.to_nat 0) with 0%nat in Htake. cbn [Nat.add take app] in Htake.
  rewrite Htake.
  unfold ctx_after_scan, world_after_scan.
  eq_fields.
Qed.

Lemma rtl_get_fm_stations_full t buf w ns rest :
  clock_sweep ns (clock w) rest ->
  length ns = 100%nat ->
  length (station_list t) = Z.to_nat MAX_FM_STATIONS ->
  let d := discovered (power w) (reads w) band ns in
  rtl_get_fm_stations (Some t) buf w =
  if (length d <=? length buf)%nat
  then Ok (Z.of_nat (length d), d ++ drop (length d) buf,
           Some (ctx_after_scan t d))
          (world_after_scan w ns rest)
  else Fault OutOfBounds.
Proof.
  intros Hclk Hns Hsize d.
  unfold rtl_get_fm_stations, bind at 1.
  rewrite (scan_fm_stations_full t w ns rest Hclk Hns Hsize). fold d.
  unfold bind, deref, ret, memcpy, ctx_after_scan.
  cbn [station_list station_list_len].
  rewrite length_app, length_drop.
  destruct (Nat.leb_spec (length d) (length buf)) as [Hle|Hgt].
  - destruct (Z.leb_spec (Z.of_nat (length d)) (Z.of_nat (length buf)));
      [|lia].
    destruct (Z.leb_spec (Z.of_nat (length d))
                (Z.of_nat (length d + (length (station_list t) - length d))));
      [|lia].
    cbn [andb]. rewrite Nat2Z.id, take_app_length. reflexivity.
  - destruct (Z.leb_spec (Z.of_nat (length d)) (Z.of_nat (length buf)));
      [lia|]. reflexivity.
Qed.

Lemma clock_sweep_length ns clk rest :
  clock_sweep ns clk rest ->
  length clk = (2 * length ns + sum_list ns + length rest)%nat.
Proof.
  induction 1 as [clk|start inside stop clk ns rest Hin Hout Hsw IH].
  - cbn. lia.
  - cbn [length sum_list sum_list_with id].
    rewrite length_app. cbn [length]. rewrite IH. lia.
Qed.

Lemma sublist_StronglySorted {A} (R : relation A) (l1 l2 : list A) :
  sublist l1 l2 -> StronglySorted R l2 -> StronglySorted R l1.
Proof.
  induction 1 as [|x l1 l2 Hsub IH|x l1 l2 Hsub IH]; intros Hs.
  - constructor.
  - apply StronglySorted_inv in Hs as [Hs Hall].
    constructor; [now apply IH|].
    rewrite Forall_forall in Hall |- *. intros y Hy.
    apply Hall. eapply elem_of_sublist; eassumption.
  - apply StronglySorted_inv in Hs as [Hs _]. now apply IH.
Qed.

Lemma band_sorted : StronglySorted below_freq band.
Proof.
  apply (bool_decide_unpack (StronglySorted below_freq band)).
  vm_compute. reflexivity.
Qed.

(** Sums and means that meet a NaN. *)
Lemma add_nan_l (x : double) : add S754_nan x = S754_nan.
Proof. reflexivity. Qed.

Lemma add_nan_r (x : double) : add x S754_nan = S754_nan.
Proof. destruct x; reflexivity. Qed.

Lemma fold_add_nan (l : list double) : fold_left add l S754_nan = S754_nan.
Proof. induction l as [|x l IH]; [reflexivity|]. cbn [fold_left]. exact IH. Qed.

Lemma fold_add_has_nan (l : list double) :
  forall acc, S754_nan ∈ l -> fold_left add l acc = S754_nan.
Proof.
  induction l as [|x l IH]; intros acc Hin.
  - now apply not_elem_of_nil in Hin.
  - cbn [fold_left]. apply elem_of_cons in Hin as [<-|Hin].
    + rewrite add_nan_r. apply fold_add_nan.
    + now apply IH.
Qed.

Lemma div_nan (y : double) : div S754_nan y = S754_nan.
Proof. reflexivity. Qed.

Lemma ltb_nan (x : double) : ltb x S754_nan = false.
Proof. destruct x; reflexivity. Qed.

Lemma fold_add_zeros (n : nat) : fold_left add (replicate n zero) zero = zero.
Proof. induction n as [|n IH]; [reflexivity|exact IH]. Qed.

Lemma threshold_above_zero_quotient (y : double) :
  ltb POWER_THRESHOLD (div zero y) = false.
Proof. destruct y as [s|s| |s m e]; try destruct s; reflexivity. Qed.

Lemma report_freqs pw (l : list double) :
  forall r ns, omap reported_freq (report pw r l ns) = discovered pw r l ns.
Proof.
  induction l as [|f l IH]; intros r ns; [reflexivity|].
  destruct ns as [|n ns]; [reflexivity|].
  cbn [report discovered]. rewrite omap_app, IH.
  destruct (detects _); reflexivity.
Qed.

Lemma detects_nan (l : list double) : S754_nan ∈ l -> detects l = false.
Proof.
  intros Hin. unfold detects, sum_of.
  rewrite (fold_add_has_nan l zero Hin), div_nan, ltb_nan.
  apply andb_false_r.
Qed.

Lemma detects_zeros (n : nat) : detects (replicate n zero) = false.
Proof.
  unfold detects, sum_of.
  rewrite fold_add_zeros, threshold_above_zero_quotient.
  apply andb_false_r.
Qed.

Lemma demo_sweep (pw : double -> nat -> double) (ns : list nat) :
  clock_sweep ns (clock (demo_world pw ns)) [].
Proof. apply steady_clock_sweep. Qed.

Lemma demo_size : length (station_list demo_ctx) = Z.to_nat MAX_FM_STATIONS.
Proof. reflexivity. Qed.

(** ** The measurement window *)

(** X2.  On a clock whose next readings are [inside], all in the
    window, and then [stop], which is not, the polling loop takes one
    sample of the probe for each reading of [inside], consumes the clock
    up to and with [stop], and returns the sum of the samples, added in
    double precision in the order they were read, with their count
    modulo [2^32]. *)
Theorem polling_loop_result (start stop : Z) (inside rest : list Z)
    (hz : double) (w : world)
    (Hin : Forall (fun t => elapsed_ms start t < MEASURE_MS) inside)
    (Hout : MEASURE_MS <= elapsed_ms start stop) :
  measure (inside ++ stop :: rest) start hz zero 0 w =
  Ok (sum_of (samples (power w) hz (reads w) (length inside)),
      wrap32 (Z.of_nat (length inside)))
     (World rest (power w) (reads w + length inside)%nat (slept w)
            (stdout w) (junk w)).
Proof.
  rewrite measure_window by assumption. now rewrite count_after_0.
Qed.

Lemma polling_loop_result_witness :
  measure ([10; 20; 30] ++ 200000000 :: [200000001]) 0 hz_101_9 zero 0
          (demo_world (fun _ i => of_int (Z.of_nat i)) [])
  = Ok (sum_of [of_int 0; of_int 1; of_int 2], wrap32 3)
       (World [200000001] (fun _ i => of_int (Z.of_nat i)) 3 0 [] zero).
Proof.
  apply (polling_loop_result 0 200000000 [10; 20; 30] [200000001] hz_101_9
           (demo_world (fun _ i => of_int (Z.of_nat i)) [])).
  - repeat constructor.
  - discriminate.
Defined.

(** ** When and how a scan returns *)

(** X3.  On a context whose station array has its declared size, a
    scan returns exactly when the clock carries the hundred measurement
    windows of the sweep, each closed by a reading 200 ms or more after
    its start; on any other clock it polls until the clock runs out, and
    it never stops on another fault. *)
Theorem scan_returns_iff_windows_close (t : rtl_ctx) (w : world)
    (Hsize : length (station_list t) = Z.to_nat MAX_FM_STATIONS) :
  ((exists ns rest, clock_sweep ns (clock w) rest /\ length ns = 100%nat)
   <-> exists r w', scan_fm_stations (Some t) w = Ok r w') /\
  ((~ exists ns rest, clock_sweep ns (clock w) rest /\ length ns = 100%nat)
   -> scan_fm_stations (Some t) w = Fault ClockExhausted).
Proof.
  split.
  - split.
    + intros (ns & rest & Hsw & Hlen).
      eexists _, _. exact (scan_fm_stations_full t w ns rest Hsw Hlen Hsize).
    + intros (r & w' & Hrun).
      destruct (scan_fm_stations_outcome t w) as [Hex|Hf]; [exact Hex|].
      rewrite Hf in Hrun. discriminate.
  - intros Hno.
    destruct (scan_fm_stations_outcome t w) as [Hex|Hf];
      [contradiction|exact Hf].
Qed.

Lemma scan_returns_iff_windows_close_witness :
  ((exists ns rest,
       clock_sweep ns (clock (demo_world (fun _ _ => d_1)
                                (replicate 100 3%nat))) rest /\
       length ns = 100%nat)
   <-> exists r w',
       scan_fm_stations (Some demo_ctx)
         (demo_world (fun _ _ => d_1) (replicate 100 3%nat)) = Ok r w') /\
  ((~ exists ns rest,
        clock_sweep ns (clock (demo_world (fun _ _ => d_1)
                                 (replicate 100 3%nat))) rest /\
        length ns = 100%nat)
   -> scan_fm_stations (Some demo_ctx)
        (demo_world (fun _ _ => d_1) (replicate 100 3%nat))
      = Fault ClockExhausted).
Proof.
  exact (scan_returns_iff_windows_close demo_ctx
           (demo_world (fun _ _ => d_1) (replicate 100 3%nat)) demo_size).
Defined.

(** X4.  A scan that returns has slept a hundred settle delays,
    100 000 ms in all, has taken one sample of the probe for each poll
    inside a window, and has read the clock twice per window and once
    per sample; it leaves the probe as it was. *)
Theorem scan_sleeps_and_reads (t : rtl_ctx) (w : world) (ns : list nat)
    (rest : list Z)
    (Hclk : clock_sweep ns (clock w) rest)
    (Hlen : length ns = 100%nat)
    (Hsize : length (station_list t) = Z.to_nat MAX_FM_STATIONS) :
  exists t' w',
    scan_fm_stations (Some t) w = Ok (Some t') w' /\
    slept w' = slept w + 100 * SWITCH_DELAY_MS /\
    reads w' = (reads w + sum_list ns)%nat /\
    clock w' = rest /\
    length (clock w) = (200 + sum_list ns + length (clock w'))%nat /\
    power w' = power w.
Proof.
  eexists _, _.
  split; [exact (scan_fm_stations_full t w ns rest Hclk Hlen Hsize)|].
  unfold world_after_scan. cbn [slept reads clock power].
  repeat split.
  rewrite (clock_sweep_length ns (clock w) rest Hclk), Hlen. lia.
Qed.

Lemma scan_sleeps_and_reads_witness :
  exists t' w',
    scan_fm_stations (Some demo_ctx)
      (demo_world (fun _ _ => d_1) (replicate 100 3%nat)) = Ok (Some t') w' /\
    slept w' = 0 + 100 * SWITCH_DELAY_MS /\
    reads w' = (0 + sum_list (replicate 100 3%nat))%nat /\
    clock w' = [] /\
    length (steady_clock 0 (replicate 100 3%nat))
    = (200 + sum_list (replicate 100 3%nat) + length (clock w'))%nat /\
    power w' = (fun _ _ => d_1).
Proof.
  exact (scan_sleeps_and_reads demo_ctx
           (demo_world (fun _ _ => d_1) (replicate 100 3%nat))
           (replicate 100 3%nat) [] (demo_sweep _ _) eq_refl demo_size).
Defined.

(** X5.  A scan overwrites the front of the station array only: the
    array keeps its size, the entries from the new count on are those it
    held before the scan - stale stations of a longer, earlier result
    stay behind the count -, and the flowgraph runs or rests as
    before. *)
Theorem scan_keeps_entries_past_count (t : rtl_ctx) (w : world)
    (ns : list nat) (rest : list Z)
    (Hclk : clock_sweep ns (clock w) rest)
    (Hlen : length ns = 100%nat)
    (Hsize : length (station_list t) = Z.to_nat MAX_FM_STATIONS) :
  exists t' w',
    scan_fm_stations (Some t) w = Ok (Some t') w' /\
    length (station_list t') = length (station_list t) /\
    top_block t' = top_block t /\
    forall i, (Z.to_nat (station_list_len t') <= i)%nat ->
              station_list t' !! i = station_list t !! i.
Proof.
  eexists _, _.
  split; [exact (scan_fm_stations_full t w ns rest Hclk Hlen Hsize)|].
  pose proof (discovered_length (power w) (reads w) band ns) as Hd.
  rewrite band_length in Hd.
  set (d := discovered (power w) (reads w) band ns) in *.
  unfold ctx_after_scan.
  cbn [station_list station_list_len top_block].
  split; [|split; [reflexivity|]].
  - rewrite length_app, length_drop, Hsize. unfold MAX_FM_STATIONS. lia.
  - intros i Hi. rewrite Nat2Z.id in Hi.
    rewrite lookup_app_r by exact Hi.
    rewrite lookup_drop. f_equal. lia.
Qed.

Lemma scan_keeps_entries_past_count_witness :
  exists t' w',
    scan_fm_stations (Some full_ctx)
      (demo_world first_only (replicate 100 3%nat)) = Ok (Some t') w' /\
    length (station_list t') = length (station_list full_ctx) /\
    top_block t' = top_block full_ctx /\
    forall i, (Z.to_nat (station_list_len t') <= i)%nat ->
              station_list t' !! i = station_list full_ctx !! i.
Proof.
  exact (scan_keeps_entries_past_count full_ctx
           (demo_world first_only (replicate 100 3%nat))
           (replicate 100 3%nat) [] (demo_sweep _ _) eq_refl eq_refl).
Defined.

(** X6.  When the scan returns, [rtl_get_fm_stations] writes past the
    end of the array of its caller exactly when that array has fewer
    entries than stations were found; an array of [MAX_FM_STATIONS]
    entries is never overrun. *)
Theorem caller_array_overrun_iff (t : rtl_ctx) (buf : list double)
    (w : world) (ns : list nat) (rest : list Z)
    (Hclk : clock_sweep ns (clock w) rest)
    (Hlen : length ns = 100%nat)
    (Hsize : length (station_list t) = Z.to_nat MAX_FM_STATIONS) :
  (rtl_get_fm_stations (Some t) buf w = Fault OutOfBounds <->
   (length buf < length (discovered (power w) (reads w) band ns))%nat) /\
  ((Z.to_nat MAX_FM_STATIONS <= length buf)%nat ->
   exists r w', rtl_get_fm_stations (Some t) buf w = Ok r w').
Proof.
  pose proof (discovered_length (power w) (reads w) band ns) as Hd.
  rewrite band_length in Hd.
  rewrite (rtl_get_fm_stations_full t buf w ns rest Hclk Hlen Hsize).
  set (d := discovered (power w) (reads w) band ns) in *.
  destruct (Nat.leb_spec (length d) (length buf)) as [Hle|Hgt].
  - split.
    + split; [discriminate|lia].
    + intros _. eexists _, _. reflexivity.
  - split.
    + split; [intros _; exact Hgt|reflexivity].
    + unfold MAX_FM_STATIONS. intros Hcap. lia.
Qed.

Lemma caller_array_overrun_iff_witness :
  (rtl_get_fm_stations (Some demo_ctx) (replicate 99 zero)
     (demo_world (fun _ _ => d_1) (replicate 100 3%nat)) = Fault OutOfBounds
   <->
   (length (replicate 99 zero)
    < length (discovered (fun _ _ => d_1) 0 band (replicate 100 3%nat)))%nat)
  /\
  ((Z.to_nat MAX_FM_STATIONS <= length (replicate 99 zero))%nat ->
   exists r w',
     rtl_get_fm_stations (Some demo_ctx) (replicate 99 zero)
       (demo_world (fun _ _ => d_1) (replicate 100 3%nat)) = Ok r w').
Proof.
  exact (caller_array_overrun_iff demo_ctx (replicate 99 zero)
           (demo_world (fun _ _ => d_1) (replicate 100 3%nat))
           (replicate 100 3%nat) [] (demo_sweep _ _) eq_refl demo_size).
Defined.

(** ** What a scan can find *)

Lemma scan_ok_stations t w t' w' :
  length (station_list t) = Z.to_nat MAX_FM_STATIONS ->
  scan_fm_stations (Some t) w = Ok (Some t') w' ->
  exists ns rest,
    clock_sweep ns (clock w) rest /\ length ns = 100%nat /\
    stations t' = discovered (power w) (reads w) band ns.
Proof.
  intros Hsize Hrun.
  destruct (scan_fm_stations_outcome t w) as [(ns & rest & Hsw & Hlen)|Hf];
    [|rewrite Hf in Hrun; discriminate].
  exists ns, rest. split; [exact Hsw|]. split; [exact Hlen|].
  rewrite (scan_fm_stations_full t w ns rest Hsw Hlen Hsize) in Hrun.
  apply (f_equal (fun r => match r with
                           | Ok (Some x) _ => stations x
                           | _ => []
                           end)) in Hrun.
  cbv beta iota in Hrun. rewrite <- Hrun.
  unfold ctx_after_scan. apply stations_after_scan.
Qed.

(** X7.  Whatever the probe reads, the stations a scan leaves in the
    context are candidates of the sweep in the order of the sweep:
    a sublist of the band, strictly ascending and without duplicates. *)
Theorem scan_result_ascending (t : rtl_ctx) (w : world) (t' : rtl_ctx)
    (w' : world)
    (Hsize : length (station_list t) = Z.to_nat MAX_FM_STATIONS)
    (Hrun : scan_fm_stations (Some t) w = Ok (Some t') w') :
  sublist (stations t') band /\
  StronglySorted below_freq (stations t') /\
  NoDup (stations t').
Proof.
  destruct (scan_ok_stations t w t' w' Hsize Hrun) as (ns & rest & _ & _ & ->).
  pose proof (discovered_sublist (power w) band (reads w) ns) as Hsub.
  split; [exact Hsub|]. split.
  - exact (sublist_StronglySorted below_freq _ band Hsub band_sorted).
  - exact (sublist_NoDup _ band band_NoDup Hsub).
Qed.

Lemma scan_result_ascending_witness :
  sublist (stations (ctx_after_scan demo_ctx
                       (discovered nan_at_5 0 band (replicate 100 3%nat))))
          band /\
  StronglySorted below_freq
    (stations (ctx_after_scan demo_ctx
                 (discovered nan_at_5 0 band (replicate 100 3%nat)))) /\
  NoDup (stations (ctx_after_scan demo_ctx
                     (discovered nan_at_5 0 band (replicate 100 3%nat)))).
Proof.
  exact (scan_result_ascending demo_ctx
           (demo_world nan_at_5 (replicate 100 3%nat)) _ _ demo_size
           (scan_fm_stations_full demo_ctx
              (demo_world nan_at_5 (replicate 100 3%nat))
              (replicate 100 3%nat) [] (demo_sweep _ _) eq_refl demo_size)).
Defined.

(** X8.  A single NaN among the readings of a window makes the sum and
    the mean of the window NaN, and the candidate of that window is not
    recorded, whatever the other readings are. *)
Theorem nan_reading_hides_station (t : rtl_ctx) (w : world) (ns : list nat)
    (rest : list Z) (i : nat) (f : double) (n : nat)
    (Hclk : clock_sweep ns (clock w) rest)
    (Hlen : length ns = 100%nat)
    (Hsize : length (station_list t) = Z.to_nat MAX_FM_STATIONS)
    (Hf : band !! i = Some f)
    (Hn : ns !! i = Some n)
    (Hnan : S754_nan ∈ samples (power w) (mul f d_1e6)
                                (reads w + sum_list (take i ns)) n) :
  exists t' w',
    scan_fm_stations (Some t) w = Ok (Some t') w' /\
    f ∉ stations t'.
Proof.
  eexists _, _.
  split; [exact (scan_fm_stations_full t w ns rest Hclk Hlen Hsize)|].
  unfold ctx_after_scan. rewrite stations_after_scan.
  rewrite (discovered_elem (power w) band band_NoDup (reads w) ns i f n Hf Hn).
  rewrite (detects_nan _ Hnan). discriminate.
Qed.

Lemma nan_reading_hides_station_witness :
  exists t' w',
    scan_fm_stations (Some demo_ctx)
      (demo_world nan_at_5 (replicate 100 3%nat)) = Ok (Some t') w' /\
    S754_finite false 6199486362052199 (-46) ∉ stations t'.
Proof.
  apply (nan_reading_hides_station demo_ctx
           (demo_world nan_at_5 (replicate 100 3%nat))
           (replicate 100 3%nat) [] 1%nat
           (S754_finite false 6199486362052199 (-46)) 3%nat).
  - apply demo_sweep.
  - reflexivity.
  - exact demo_size.
  - reflexivity.
  - reflexivity.
  - apply list_elem_of_In. right. left. reflexivity.
Defined.

(** X9.  When the probe reads 0.0 all the time - no signal anywhere -
    a scan that returns finds nothing, however many samples its windows
    take: [rtl_get_fm_stations] returns the count zero and leaves the
    array of its caller untouched. *)
Theorem silent_band_finds_nothing (t : rtl_ctx) (buf : list double)
    (w : world) (ns : list nat) (rest : list Z)
    (Hzero : constant_power w zero)
    (Hclk : clock_sweep ns (clock w) rest)
    (Hlen : length ns = 100%nat)
    (Hsize : length (station_list t) = Z.to_nat MAX_FM_STATIONS) :
  exists t' w',
    rtl_get_fm_stations (Some t) buf w = Ok (0, buf, Some t') w' /\
    stations t' = [] /\ station_list_len t' = 0.
Proof.
  assert (discovered (power w) (reads w) band ns = []) as Hd.
  { apply discovered_none. intros f r n _ _.
    rewrite (samples_const (power w) zero) by exact Hzero.
    apply detects_zeros. }
  pose proof (rtl_get_fm_stations_full t buf w ns rest Hclk Hlen Hsize) as Hrun.
  cbv zeta in Hrun. rewrite Hd in Hrun. cbn [length Nat.leb app drop] in Hrun.
  eexists _, _. split; [exact Hrun|]. split; reflexivity.
Qed.

Lemma silent_band_finds_nothing_witness :
  exists t' w',
    rtl_get_fm_stations (Some demo_ctx) [d_1; d_1]
      (demo_world (fun _ _ => zero) (replicate 100 1000%nat))
    = Ok (0, [d_1; d_1], Some t') w' /\
    stations t' = [] /\ station_list_len t' = 0.
Proof.
  apply (silent_band_finds_nothing demo_ctx [d_1; d_1]
           (demo_world (fun _ _ => zero) (replicate 100 1000%nat))
           (replicate 100 1000%nat) []).
  - intros hz i. reflexivity.
  - apply demo_sweep.
  - apply length_replicate.
  - exact demo_size.
Defined.

Lemma get_stations_fault t buf w f :
  scan_fm_stations (Some t) w = Fault f ->
  rtl_get_fm_stations (Some t) buf w = Fault f.
Proof. intros Hf. unfold rtl_get_fm_stations, bind at 1. now rewrite Hf. Qed.

(** X10.  The count and the entries that [rtl_get_fm_stations] hands to
    its caller, the world it leaves and the fault it may stop on do not
    depend on what the context held before the call - the tuned
    frequency, the station array, or the length field, which may hold
    anything. *)
Theorem result_ignores_previous_context (t1 t2 : rtl_ctx)
    (buf : list double) (w : world)
    (Hsize1 : length (station_list t1) = Z.to_nat MAX_FM_STATIONS)
    (Hsize2 : length (station_list t2) = Z.to_nat MAX_FM_STATIONS) :
  match rtl_get_fm_stations (Some t1) buf w,
        rtl_get_fm_stations (Some t2) buf w with
  | Ok (count1, buf1, _) w1, Ok (count2, buf2, _) w2 =>
      count1 = count2 /\ buf1 = buf2 /\ w1 = w2
  | Fault f1, Fault f2 => f1 = f2
  | _, _ => False
  end.
Proof.
  destruct (scan_fm_stations_outcome t1 w) as [(ns & rest & Hsw & Hlen)|Hf1].
  - rewrite (rtl_get_fm_stations_full t1 buf w ns rest Hsw Hlen Hsize1).
    rewrite (rtl_get_fm_stations_full t2 buf w ns rest Hsw Hlen Hsize2).
    cbv zeta. destruct (_ <=? _)%nat; [|reflexivity].
    repeat split.
  - destruct (scan_fm_stations_outcome t2 w) as [(ns & rest & Hsw & Hlen)|Hf2].
    + rewrite (scan_fm_stations_full t1 w ns rest Hsw Hlen Hsize1) in Hf1.
      discriminate.
    + now rewrite (get_stations_fault t1 buf w _ Hf1),
        (get_stations_fault t2 buf w _ Hf2).
Qed.

Lemma result_ignores_previous_context_witness :
  match rtl_get_fm_stations (Some demo_ctx) (replicate 100 zero)
          (demo_world (fun _ _ => d_1) (replicate 100 3%nat)),
        rtl_get_fm_stations
          (Some (Ctx false zero (replicate 100 d_1) (-7)))
          (replicate 100 zero)
          (demo_world (fun _ _ => d_1) (replicate 100 3%nat)) with
  | Ok (count1, buf1, _) w1, Ok (count2, buf2, _) w2 =>
      count1 = count2 /\ buf1 = buf2 /\ w1 = w2
  | Fault f1, Fault f2 => f1 = f2
  | _, _ => False
  end.
Proof.
  apply (result_ignores_previous_context demo_ctx
           (Ctx false zero (replicate 100 d_1) (-7)) (replicate 100 zero)
           (demo_world (fun _ _ => d_1) (replicate 100 3%nat))).
  - exact demo_size.
  - reflexivity.
Defined.

(** X11.  A scan that returns has printed "Starting scan" first and
    "Finished scan" last and, between them, one line for each station
    it recorded, in the order of the sweep, with the frequency and the
    mean of its window; the frequencies printed are the stations of the
    context. *)
Theorem scan_prints_progress (t : rtl_ctx) (w : world) (ns : list nat)
    (rest : list Z)
    (Hclk : clock_sweep ns (clock w) rest)
    (Hlen : length ns = 100%nat)
    (Hsize : length (station_list t) = Z.to_nat MAX_FM_STATIONS) :
  exists t' w' lines,
    scan_fm_stations (Some t) w = Ok (Some t') w' /\
    stdout w'
    = Printf "Finished scan\n" [] :: rev lines
      ++ Printf "Starting scan\n" [] :: stdout w /\
    lines = report (power w) (reads w) band ns /\
    omap reported_freq lines = stations t'.
Proof.
  eexists _, _, _.
  split; [exact (scan_fm_stations_full t w ns rest Hclk Hlen Hsize)|].
  split; [reflexivity|]. split; [reflexivity|].
  unfold ctx_after_scan. rewrite stations_after_scan. apply report_freqs.
Qed.

Lemma scan_prints_progress_witness :
  exists t' w' lines,
    scan_fm_stations (Some demo_ctx)
      (demo_world nan_at_5 (replicate 100 3%nat)) = Ok (Some t') w' /\
    stdout w'
    = Printf "Finished scan\n" [] :: rev lines
      ++ Printf "Starting scan\n" [] :: [] /\
    lines = report nan_at_5 0 band (replicate 100 3%nat) /\
    omap reported_freq lines = stations t'.
Proof.
  exact (scan_prints_progress demo_ctx
           (demo_world nan_at_5 (replicate 100 3%nat))
           (replicate 100 3%nat) [] (demo_sweep _ _) eq_refl demo_size).
Defined.

(** * Further properties of the threads *)

Lemma moved_trans s1 s2 s3 tid p q :
  moved s1 s2 tid p -> moved s2 s3 tid q -> moved s1 s3 tid q.
Proof.
  intros [_ H12] [H3 H23]. split; [exact H3|].
  intros j Hj. rewrite (H23 j Hj). now apply H12.
Qed.

Lemma moved_upd s c m pub tid p :
  moved s (State c m (upd (threads s) tid p) pub) tid p.
Proof.
  split; cbn [threads]; [apply upd_eq|]. intros j Hj. now apply upd_ne.
Qed.

(** The first memcpy, from entry [i] to its end, without interruption. *)
Lemma run_write_copy (k : nat) :
  forall s tid r i,
    threads s tid = WriteCopy r i ->
    (i + k = length r)%nat ->
    (length r <= length (station_list (ctx s)))%nat ->
    exists s',
      rtc step s s' /\
      moved s s' tid (WriteCopy r (length r)) /\
      ctx s' = set_list (ctx s)
                 (take i (station_list (ctx s)) ++ drop i r
                  ++ drop (length r) (station_list (ctx s))) /\
      mtx s' = mtx s /\ published s' = published s.
Proof.
  induction k as [|k IH]; intros s tid r i Hpc Hik Hlen.
  - exists s. split; [apply rtc_refl|].
    assert (i = length r) as -> by lia.
    split; [split; [exact Hpc|reflexivity]|].
    split; [|split; reflexivity].
    rewrite drop_all. cbn [app]. rewrite take_drop.
    destruct (ctx s); reflexivity.
  - destruct (lookup_lt_is_Some_2 r i) as [x Hx]; [lia|].
    set (s1 := State (set_list (ctx s) (<[i := x]> (station_list (ctx s))))
                     (mtx s) (upd (threads s) tid (WriteCopy r (S i)))
                     (published s)).
    destruct (IH s1 tid r (S i)) as (s' & Hrun & Hmv & Hctx & Hm & Hpub).
    { apply upd_eq. }
    { lia. }
    { cbn [s1 ctx set_list station_list]. now rewrite length_insert. }
    exists s'. split; [|split; [|split; [|split]]].
    + eapply rtc_l; [|exact Hrun]. exact (step_write_copy s tid r i x Hpc Hx).
    + exact (moved_trans s s1 s' tid _ _ (moved_upd s _ _ _ tid _) Hmv).
    + rewrite Hctx. cbn [s1 ctx set_list station_list top_block rtl_source
                          station_list_len].
      f_equal.
      rewrite (take_S_r (<[i := x]> (station_list (ctx s))) i x)
        by (apply list_lookup_insert_eq; lia).
      rewrite take_insert_ge by lia.
      rewrite drop_insert_lt by lia.
      rewrite (drop_S r x i Hx). now rewrite <- app_assoc.
    + exact Hm.
    + exact Hpub.
Qed.

(** The first critical section, without interruption. *)
Lemma run_write s tid r :
  threads s tid = WriteLock r ->
  mtx s = None ->
  (length r <= length (station_list (ctx s)))%nat ->
  exists s',
    rtc step s s' /\
    moved s s' tid ReadLock /\
    ctx s' = Ctx (top_block (ctx s)) (rtl_source (ctx s))
                 (r ++ drop (length r) (station_list (ctx s)))
                 (Z.of_nat (length r)) /\
    mtx s' = None /\ published s' = r :: published s.
Proof.
  intros Hpc Hm Hlen.
  set (s1 := State (ctx s) (Some tid) (upd (threads s) tid (WriteCopy r 0))
                   (published s)).
  destruct (run_write_copy (length r) s1 tid r 0%nat)
    as (s2 & Hrun2 & Hmv2 & Hctx2 & Hm2 & Hpub2);
    [apply upd_eq | lia | exact Hlen |].
  cbn [s1 ctx mtx published take drop app] in Hctx2, Hm2, Hpub2.
  destruct Hmv2 as [Hpc2 Hoth2].
  set (s3 := State (ctx s2) (mtx s2) (upd (threads s2) tid (WriteLen r))
                   (published s2)).
  set (s4 := State (set_len (ctx s3) (Z.of_nat (length r))) (mtx s3)
                   (upd (threads s3) tid (WriteUnlock r)) (published s3)).
  set (s5 := State (ctx s4) None (upd (threads s4) tid ReadLock)
                   (r :: published s4)).
  exists s5. split; [|split; [|split; [|split]]].
  - eapply rtc_l; [exact (step_write_lock s tid r Hpc Hm)|].
    eapply rtc_trans; [exact Hrun2|].
    eapply rtc_l; [exact (step_write_copied s2 tid r Hpc2)|].
    eapply rtc_l; [apply (step_write_len s3 tid r); apply upd_eq|].
    eapply rtc_l; [apply (step_write_unlock s4 tid r); apply upd_eq|].
    apply rtc_refl.
  - split; [apply upd_eq|]. intros j Hj.
    cbn [s5 s4 s3 threads]. rewrite !upd_ne by exact Hj.
    rewrite (Hoth2 j Hj). cbn [s1 threads]. now apply upd_ne.
  - cbn [s5 s4 s3 ctx]. rewrite Hctx2. reflexivity.
  - reflexivity.
  - cbn [s5 s4 s3 published]. now rewrite Hpub2.
Qed.

(** The second memcpy, from entry [i] to its end, without interruption. *)
Lemma run_read_copy (k : nat) :
  forall s tid buf n i,
    threads s tid = ReadCopy buf n i ->
    (i + k = Z.to_nat n)%nat -> 0 <= n ->
    (Z.to_nat n <= length (station_list (ctx s)))%nat ->
    (Z.to_nat n <= length buf)%nat ->
    exists s',
      rtc step s s' /\
      moved s s' tid
        (ReadCopy (take i buf
                   ++ drop i (take (Z.to_nat n) (station_list (ctx s)))
                   ++ drop (Z.to_nat n) buf) n (Z.to_nat n)) /\
      ctx s' = ctx s /\ mtx s' = mtx s /\ published s' = published s.
Proof.
  induction k as [|k IH]; intros s tid buf n i Hpc Hik Hn Hlist Hbuf.
  - exists s. split; [apply rtc_refl|].
    assert (i = Z.to_nat n) as -> by lia.
    split; [|repeat split].
    split; [|reflexivity].
    rewrite Hpc. f_equal.
    rewrite (drop_ge (take _ _)) by (rewrite length_take; lia).
    cbn [app]. now rewrite take_drop.
  - destruct (lookup_lt_is_Some_2 (station_list (ctx s)) i) as [x Hx]; [lia|].
    set (s1 := State (ctx s) (mtx s)
                     (upd (threads s) tid (ReadCopy (<[i := x]> buf) n (S i)))
                     (published s)).
    destruct (IH s1 tid (<[i := x]> buf) n (S i))
      as (s' & Hrun & Hmv & Hctx & Hm & Hpub).
    { apply upd_eq. }
    { lia. }
    { exact Hn. }
    { exact Hlist. }
    { now rewrite length_insert. }
    exists s'. split; [|split; [|split; [|split]]].
    + eapply rtc_l; [|exact Hrun].
      apply (step_read_copy s tid buf n i x Hpc); [lia|exact Hx].
    + cbn [s1 ctx] in Hmv.
      replace (take i buf
               ++ drop i (take (Z.to_nat n) (station_list (ctx s)))
               ++ drop (Z.to_nat n) buf)
        with (take (S i) (<[i := x]> buf)
              ++ drop (S i) (take (Z.to_nat n) (station_list (ctx s)))
              ++ drop (Z.to_nat n) (<[i := x]> buf)).
      * exact (moved_trans s s1 s' tid _ _ (moved_upd s _ _ _ tid _) Hmv).
      * rewrite (take_S_r (<[i := x]> buf) i x)
          by (apply list_lookup_insert_eq; lia).
        rewrite take_insert_ge by lia.
        rewrite drop_insert_lt by lia.
        rewrite (drop_S (take (Z.to_nat n) (station_list (ctx s))) x i)
          by (rewrite lookup_take_lt by lia; exact Hx).
        now rewrite <- app_assoc.
    + exact Hctx.
    + exact Hm.
    + exact Hpub.
Qed.

(** The second critical section, without interruption. *)
Lemma run_read s tid buf :
  threads s tid = ReadLock ->
  mtx s = None ->
  length buf = Z.to_nat MAX_FM_STATIONS ->
  0 <= station_list_len (ctx s) ->
  (Z.to_nat (station_list_len (ctx s))
   <= length (station_list (ctx s)))%nat ->
  (Z.to_nat (station_list_len (ctx s)) <= length buf)%nat ->
  exists s',
    rtc step s s' /\
    moved s s' tid
      (Done (stations (ctx s)
             ++ drop (Z.to_nat (station_list_len (ctx s))) buf)
            (station_list_len (ctx s))) /\
    ctx s' = ctx s /\ mtx s' = None /\ published s' = published s.
Proof.
  intros Hpc Hm Hbuf Hn Hlist Hcap.
  set (n := station_list_len (ctx s)) in *.
  set (s1 := State (ctx s) (Some tid)
                   (upd (threads s) tid (ReadCopy buf n 0)) (published s)).
  destruct (run_read_copy (Z.to_nat n) s1 tid buf n 0%nat)
    as (s2 & Hrun2 & Hmv2 & Hctx2 & Hm2 & Hpub2);
    [apply upd_eq | lia | exact Hn | exact Hlist | exact Hcap |].
  cbn [s1 ctx mtx published take drop app] in Hmv2, Hctx2, Hm2, Hpub2.
  destruct Hmv2 as [Hpc2 Hoth2].
  set (buf2 := take (Z.to_nat n) (station_list (ctx s))
               ++ drop (Z.to_nat n) buf) in *.
  set (s3 := State (ctx s2) (mtx s2) (upd (threads s2) tid (ReadLen buf2))
                   (published s2)).
  set (s4 := State (ctx s3) (mtx s3)
                   (upd (threads s3) tid
                        (ReadUnlock buf2 (station_list_len (ctx s3))))
                   (published s3)).
  set (s5 := State (ctx s4) None
                   (upd (threads s4) tid
                        (Done buf2 (station_list_len (ctx s3))))
                   (published s4)).
  exists s5. split; [|split; [|split; [|split]]].
  - eapply rtc_l; [exact (step_read_lock s tid buf Hpc Hm Hbuf)|].
    fold n. fold s1.
    eapply rtc_trans; [exact Hrun2|].
    eapply rtc_l;
      [apply (step_read_copied s2 tid buf2 n (Z.to_nat n) Hpc2); lia|].
    eapply rtc_l; [apply (step_read_len s3 tid buf2); apply upd_eq|].
    eapply rtc_l;
      [apply (step_read_unlock s4 tid buf2 (station_list_len (ctx s3)));
       apply upd_eq|].
    apply rtc_refl.
  - split.
    + cbn [s5 threads]. rewrite upd_eq. cbn [s3 ctx]. rewrite Hctx2.
      reflexivity.
    + intros j Hj. cbn [s5 s4 s3 threads]. rewrite !upd_ne by exact Hj.
      rewrite (Hoth2 j Hj). cbn [s1 threads]. now apply upd_ne.
  - cbn [s5 s4 s3 ctx]. exact Hctx2.
  - reflexivity.
  - cbn [s5 s4 s3 published]. exact Hpub2.
Qed.

Lemma get_stations_ok_inv c buf w count buf' c' w' :
  length (station_list c) = Z.to_nat MAX_FM_STATIONS ->
  rtl_get_fm_stations (Some c) buf w = Ok (count, buf', Some c') w' ->
  exists d,
    (length d <= Z.to_nat MAX_FM_STATIONS)%nat /\
    (length d <= length buf)%nat /\
    count = Z.of_nat (length d) /\
    buf' = d ++ drop (length d) buf /\
    station_list c' = d ++ drop (length d) (station_list c) /\
    station_list_len c' = Z.of_nat (length d).
Proof.
  intros Hsize Hrun.
  destruct (scan_fm_stations_outcome c w) as [(ns & rest & Hsw & Hlen)|Hf];
    [|rewrite (get_stations_fault c buf w _ Hf) in Hrun; discriminate].
  rewrite (rtl_get_fm_stations_full c buf w ns rest Hsw Hlen Hsize) in Hrun.
  cbv zeta in Hrun.
  pose proof (discovered_length (power w) (reads w) band ns) as Hd.
  rewrite band_length in Hd.
  set (d := discovered (power w) (reads w) band ns) in *.
  destruct (Nat.leb_spec (length d) (length buf)) as [Hle|Hgt];
    [|discriminate].
  exists d. split; [exact Hd|]. split; [exact Hle|].
  pose proof (f_equal (fun r => match r with
                                | Ok (n, _, _) _ => n
                                | Fault _ => 0
                                end) Hrun) as Hcount.
  pose proof (f_equal (fun r => match r with
                                | Ok (_, b, _) _ => b
                                | Fault _ => []
                                end) Hrun) as Hb.
  pose proof (f_equal (fun r => match r with
                                | Ok (_, _, Some x) _ => station_list x
                                | _ => []
                                end) Hrun) as Hl.
  pose proof (f_equal (fun r => match r with
                                | Ok (_, _, Some x) _ => station_list_len x
                                | _ => 0
                                end) Hrun) as Hn.
  cbv beta iota in Hcount, Hb, Hl, Hn.
  unfold ctx_after_scan in Hl, Hn. cbn [station_list station_list_len] in Hl, Hn.
  now repeat split.
Qed.

(** X12.  A call of [rtl_get_fm_stations] that no other thread
    interrupts is one of the runs of the threads: whenever the
    sequential call returns a count, an array and a context, thread
    [tid] can go through both critical sections, entry by entry, and
    return that count and that array, the shared context then holding
    that station list and that length, the mutex being free again. *)
Theorem uninterrupted_call_is_sequential (c : rtl_ctx) (buf : list double)
    (w : world) (tid : nat) (count : Z) (buf' : list double) (c' : rtl_ctx)
    (w' : world)
    (Hsize : length (station_list c) = Z.to_nat MAX_FM_STATIONS)
    (Hbuf : length buf = Z.to_nat MAX_FM_STATIONS)
    (Hrun : rtl_get_fm_stations (Some c) buf w = Ok (count, buf', Some c') w') :
  exists s,
    rtc step (init c) s /\
    threads s tid = Done buf' count /\
    station_list (ctx s) = station_list c' /\
    station_list_len (ctx s) = station_list_len c' /\
    mtx s = None /\
    published s = [stations c'; stations c].
Proof.
  destruct (get_stations_ok_inv c buf w count buf' c' w' Hsize Hrun)
    as (d & Hd & Hdb & -> & -> & Hl & Hn).
  set (s1 := State (ctx (init c)) (mtx (init c))
                   (upd (threads (init c)) tid (WriteLock d))
                   (published (init c))).
  destruct (run_write s1 tid d) as (s2 & Hrun2 & [Hpc2 _] & Hctx2 & Hm2 & Hpub2).
  { apply upd_eq. }
  { reflexivity. }
  { cbn [s1 init ctx]. rewrite Hsize. exact Hd. }
  cbn [s1 init ctx published] in Hctx2, Hpub2.
  assert (stations (ctx s2) = d) as Hst2.
  { rewrite Hctx2. apply stations_after_scan. }
  destruct (run_read s2 tid buf Hpc2 Hm2 Hbuf)
    as (s3 & Hrun3 & [Hpc3 _] & Hctx3 & Hm3 & Hpub3).
  { rewrite Hctx2. cbn [station_list_len]. lia. }
  { rewrite Hctx2. cbn [station_list station_list_len].
    rewrite Nat2Z.id, length_app. lia. }
  { rewrite Hctx2. cbn [station_list_len]. rewrite Nat2Z.id. exact Hdb. }
  exists s3. split; [|split; [|split; [|split; [|split]]]].
  - eapply rtc_l; [apply (step_scan (init c) tid d); [reflexivity|exact Hd]|].
    fold s1. eapply rtc_trans; [exact Hrun2|exact Hrun3].
  - rewrite Hpc3, Hst2, Hctx2. cbn [station_list_len].
    now rewrite Nat2Z.id.
  - rewrite Hctx3, Hctx2, Hl. reflexivity.
  - rewrite Hctx3, Hctx2, Hn. reflexivity.
  - exact Hm3.
  - rewrite Hpub3, Hpub2. do 2 f_equal.
    unfold stations. now rewrite Hn, Hl, Nat2Z.id, take_app_length.
Qed.

Lemma uninterrupted_call_is_sequential_witness :
  exists s,
    rtc step (init full_ctx) s /\
    threads s 7%nat = Done (d_87_9 :: replicate 99 d_1) 1 /\
    station_list (ctx s)
    = station_list (ctx_after_scan full_ctx [d_87_9]) /\
    station_list_len (ctx s)
    = station_list_len (ctx_after_scan full_ctx [d_87_9]) /\
    mtx s = None /\
    published s
    = [stations (ctx_after_scan full_ctx [d_87_9]); stations full_ctx].
Proof.
  apply (uninterrupted_call_is_sequential full_ctx (replicate 100 d_1)
           (demo_world first_only (replicate 100 3%nat)) 7%nat 1
           (d_87_9 :: replicate 99 d_1) (ctx_after_scan full_ctx [d_87_9])
           (world_after_scan (demo_world first_only (replicate 100 3%nat))
                             (replicate 100 3%nat) [])).
  - reflexivity.
  - reflexivity.
  - vm_compute. reflexivity.
Defined.

(** X13.  The mutex covers each copy, not the call: between the two
    critical sections of a call another call can publish its own
    result.  For any two station lists [r0] and [r1], the thread that
    found [r0] can return [r1], the list the other thread found. *)
Theorem call_can_return_other_result (c : rtl_ctx) (r0 r1 buf : list double)
    (Hsize : length (station_list c) = Z.to_nat MAX_FM_STATIONS)
    (Hr0 : (length r0 <= Z.to_nat MAX_FM_STATIONS)%nat)
    (Hr1 : (length r1 <= Z.to_nat MAX_FM_STATIONS)%nat)
    (Hbuf : length buf = Z.to_nat MAX_FM_STATIONS) :
  exists s1 s2,
    rtc step (init c) s1 /\
    threads s1 0%nat = WriteLock r0 /\
    rtc step s1 s2 /\
    threads s2 0%nat
    = Done (r1 ++ drop (length r1) buf) (Z.of_nat (length r1)) /\
    published s2 = [r1; r0; stations c].
Proof.
  set (s1 := State (ctx (init c)) (mtx (init c))
                   (upd (threads (init c)) 0%nat (WriteLock r0))
                   (published (init c))).
  destruct (run_write s1 0%nat r0)
    as (s2 & Hrun2 & [Hpc2 Hoth2] & Hctx2 & Hm2 & Hpub2).
  { apply upd_eq. }
  { reflexivity. }
  { cbn [s1 init ctx]. now rewrite Hsize. }
  cbn [s1 init ctx published] in Hctx2, Hpub2.
  assert (threads s2 1%nat = Scanning) as Hsc.
  { rewrite Hoth2 by lia. reflexivity. }
  set (s3 := State (ctx s2) (mtx s2) (upd (threads s2) 1%nat (WriteLock r1))
                   (published s2)).
  destruct (run_write s3 1%nat r1)
    as (s4 & Hrun4 & [Hpc4 Hoth4] & Hctx4 & Hm4 & Hpub4).
  { apply upd_eq. }
  { exact Hm2. }
  { cbn [s3 ctx]. rewrite Hctx2. cbn [station_list].
    rewrite length_app, length_drop, Hsize. lia. }
  cbn [s3 ctx published] in Hctx4, Hpub4.
  assert (threads s4 0%nat = ReadLock) as Hpc0.
  { rewrite Hoth4 by lia. cbn [s3 threads]. rewrite upd_ne by lia.
    exact Hpc2. }
  assert (stations (ctx s4) = r1) as Hst4.
  { rewrite Hctx4. apply stations_after_scan. }
  destruct (run_read s4 0%nat buf Hpc0 Hm4 Hbuf)
    as (s5 & Hrun5 & [Hpc5 _] & Hctx5 & Hm5 & Hpub5).
  { rewrite Hctx4. cbn [station_list_len]. lia. }
  { rewrite Hctx4. cbn [station_list station_list_len].
    rewrite Nat2Z.id, length_app. lia. }
  { rewrite Hctx4. cbn [station_list_len]. rewrite Nat2Z.id, Hbuf.
    exact Hr1. }
  exists s1, s5. split; [|split; [|split; [|split]]].
  - eapply rtc_l; [|apply rtc_refl].
    apply (step_scan (init c) 0%nat r0); [reflexivity|exact Hr0].
  - apply upd_eq.
  - eapply rtc_trans; [exact Hrun2|].
    eapply rtc_l; [exact (step_scan s2 1%nat r1 Hsc Hr1)|].
    fold s3. eapply rtc_trans; [exact Hrun4|exact Hrun5].
  - rewrite Hpc5, Hst4, Hctx4. cbn [station_list_len].
    now rewrite Nat2Z.id.
  - rewrite Hpub5, Hpub4, Hpub2. reflexivity.
Qed.

Lemma call_can_return_other_result_witness :
  exists s1 s2,
    rtc step (init demo_ctx) s1 /\
    threads s1 0%nat = WriteLock [d_87_9] /\
    rtc step s1 s2 /\
    threads s2 0%nat
    = Done ([d_last] ++ drop (length [d_last]) (replicate 100 zero))
           (Z.of_nat (length [d_last])) /\
    published s2 = [[d_last]; [d_87_9]; stations demo_ctx].
Proof.
  apply (call_can_return_other_result demo_ctx [d_87_9] [d_last]
           (replicate 100 zero)).
  - exact demo_size.
  - cbn [length]. unfold MAX_FM_STATIONS. lia.
  - cbn [length]. unfold MAX_FM_STATIONS. lia.
  - reflexivity.
Defined.
